(** * trezor_agent.gpg.__main__ : key creation workflow and agent loop

    A shallow embedding of [src/trezor_agent/gpg/__main__.py].

    The module is a thin orchestration layer: every interesting datum
    comes from a collaborator ([keyring], [decode], [device], [encode],
    [protocol], [formats], [agent], [server]).  Each collaborator call is
    modelled as a fallible call whose outcome is supplied by an
    environment record, and every call with an outside effect is logged
    in a trace, so that the order of the calls made by the Python code
    can be stated and proved. *)

From Stdlib Require Import ZArith List String FunctionalExtensionality.
From Stdlib.Strings Require Import Byte.
From stdpp Require Import base decidable option list strings gmap.

Local Open Scope string_scope.
Local Open Scope list_scope.

(** ** Python exceptions and the trace/error monad *)

Module Py.

(** A raised exception.  The only thing [__main__.py] ever asks of an
    exception is whether it is an instance of [Exception] (the
    [except Exception] clause of [run_agent]); [KeyboardInterrupt],
    [SystemExit] and [GeneratorExit] derive from [BaseException] only. *)
Record exn : Type := Exn {
  is_Exception : bool;
  exn_name : string
}.

Definition KeyError (key : string) : exn := Exn true ("KeyError: " +:+ key).
Definition KeyboardInterrupt : exn := Exn false "KeyboardInterrupt".
Definition SystemExit : exn := Exn false "SystemExit".

#[global] Instance exn_eq_dec : EqDecision exn.
Proof. solve_decision. Defined.

(** Outcome of a call: [inl e] when it raised [e], [inr v] when it
    returned [v]. *)
Definition result (A : Type) : Type := (exn + A)%type.

(** A computation over events [E]: the calls made so far, and how it
    ended. *)
Definition M (E A : Type) : Type := (list E * result A)%type.

Definition ret {E A} (a : A) : M E A := ([], inr a).

Definition raise {E A} (e : exn) : M E A := ([], inl e).

Definition bind {E A B} (m : M E A) (k : A -> M E B) : M E B :=
  let '(t, r) := m in
  match r with
  | inl e => (t, inl e)
  | inr a => let '(t', r') := k a in (t ++ t', r')
  end.

(** An effectful call: the call is made (and logged) whether it returns
    or raises. *)
Definition call {E A} (ev : E) (outcome : result A) : M E A := ([ev], outcome).

(** A call without outside effect that may still raise. *)
Definition lift {E A} (outcome : result A) : M E A := ([], outcome).

(** A call that cannot fail (logging). *)
Definition emit {E} (ev : E) : M E unit := ([ev], inr tt).

Definition trace {E A} (m : M E A) : list E := fst m.
Definition outcome {E A} (m : M E A) : result A := snd m.

(** [try: body / except Exception as e: handler e] *)
Definition try_except_Exception {E A} (body : M E A) (handler : exn -> M E A) : M E A :=
  let '(t, r) := body in
  match r with
  | inr a => (t, inr a)
  | inl e =>
      if is_Exception e
      then let '(t', r') := handler e in (t ++ t', r')
      else (t, inl e)
  end.

(** [with cm: body] for a context manager whose [__exit__] runs [release]
    and never suppresses the exception of the body: the release runs on
    every path; an exception raised by the release itself replaces the
    one in flight. *)
Definition with_exit {E A} (body : M E A) (release : M E unit) : M E A :=
  let '(t, r) := body in
  let '(t', r') := release in
  (t ++ t', match r' with inl e' => inl e' | inr _ => r end).

End Py.

Import Py.

Declare Scope py_scope.
Delimit Scope py_scope with py.
Notation "x <- c ;; k" := (bind c (fun x => k))
  (at level 100, c at next level, right associativity) : py_scope.
Notation "c ;;; k" := (bind c (fun _ => k))
  (at level 100, right associativity) : py_scope.
Local Open Scope py_scope.

Definition bytes : Type := list Byte.byte.

#[global] Instance byte_eq_dec : EqDecision Byte.byte := Byte.byte_eq_dec.

(** ** The [create] command *)

Module Create.

(** Values stored in a decoded packet (a Python dict). *)
Inductive pyval : Type :=
| PStr (s : string)
| PInt (n : Z)
| PBytes (b : bytes).

#[global] Instance pyval_eq_dec : EqDecision pyval.
Proof. solve_decision. Defined.

(** A decoded packet is a dict from field names to values. *)
Abbreviation packet := (gmap string pyval).

(** What iterating the generator [decode.parse_packets(...)] produces: a
    packet and the rest, the normal end of the stream, or an exception
    raised by the decoder when asked for the next packet. *)
Inductive packets : Type :=
| PEnd
| PRaise (e : exn)
| PYield (p : packet) (rest : packets).

(** Modelled from the spec: [protocol.PublicKey] is not part of the
    sources at hand; the key descriptor carries exactly the four keyword
    arguments [run_create] passes to its constructor (curve, creation
    time, verification key, and the role flag [ecdh]: [false] for a
    signing key, [true] for a key-agreement key). *)
Record PublicKey : Type := mkPublicKey {
  curve_name : string;
  created : Z;
  verifying_key : bytes;
  ecdh : bool
}.

(** The [args] namespace built by the [create] sub-parser of [main]. *)
Record Args : Type := mkArgs {
  user_id : string;
  ecdsa_curve : string;
  time : Z
}.

(** A [device.HardwareSigner] object (one device session). *)
Definition signer : Type := nat.

(** The world outside the program: the GPG keyring, the device and the
    standard output. *)
Record Env : Type := mkEnv {
  export_public_keys : result bytes;              (* keyring.export_public_keys() *)
  export_public_key : string -> result bytes;     (* keyring.export_public_key(user_id) *)
  HardwareSigner : string -> string -> result signer; (* device.HardwareSigner(user_id, curve_name) *)
  pubkey : signer -> bool -> result bytes;        (* conn.pubkey(ecdh=...) *)
  sign : signer -> bytes -> result bytes;         (* conn.sign(digest) *)
  stdout_write : string -> result unit            (* sys.stdout.write(text) *)
}.

(** The sibling modules of the package whose sources are not at hand;
    they are code, the same in every run. *)
Record Lib : Type := mkLib {
  parse_packets : bytes -> packets;               (* decode.parse_packets(io.BytesIO(...)) *)
  get_ecdh_curve_name : string -> result string;  (* formats.get_ecdh_curve_name *)
  create_primary : string -> PublicKey -> (bytes -> result bytes) -> result bytes;
  create_subkey : bytes -> PublicKey -> (bytes -> result bytes) -> result bytes;
  armor : bytes -> string -> result string        (* protocol.armor *)
}.

(** Calls observable from outside [run_create], in program order. *)
Inductive event : Type :=
| LogNote (t : Z)                          (* log.warning('NOTE: ...', args.time) *)
| LogAdding (curve uid : string)           (* log.info('adding %s GPG subkey ...') *)
| LogCreating (curve uid : string)         (* log.info('creating new %s GPG primary key ...') *)
| NewSigner (uid curve : string)           (* device.HardwareSigner(...) *)
| Pubkey (conn : signer) (ecdh : bool)     (* conn.pubkey(ecdh=...) *)
| ExportPublicKeys                         (* keyring.export_public_keys() *)
| ExportPublicKey (uid : string)           (* keyring.export_public_key(user_id) *)
| CreatePrimary (uid : string) (pubkey : PublicKey) (signer_func : signer)
| CreateSubkey (primary_bytes : bytes) (subkey : PublicKey) (signer_func : signer)
| Armor (blob : bytes) (kind : string)     (* protocol.armor(result, ...) *)
| StdoutWrite (text : string).             (* sys.stdout.write(...) *)

Section Program.

Variable lib : Lib.
Variable env : Env.

(** The [for p in ...: if ...: return True] loop of [key_exists], with
    the final [return False].  Subscripting a dict with a missing key
    raises [KeyError]; [and] evaluates its right operand only when the
    left one is true. *)
Fixpoint key_exists_loop (ps : packets) (user_id : string) : result bool :=
  match ps with
  | PEnd => inr false
  | PRaise e => inl e
  | PYield p rest =>
      match p !! "type" with
      | None => inl (KeyError "type")
      | Some ty =>
          if decide (ty = PStr "user_id") then
            match p !! "value" with
            | None => inl (KeyError "value")
            | Some v =>
                if decide (v = PStr user_id) then inr true
                else key_exists_loop rest user_id
            end
          else key_exists_loop rest user_id
      end
  end.

Definition key_exists (user_id : string) : M event bool :=
  blob <- call ExportPublicKeys (export_public_keys env) ;;
  lift (key_exists_loop (parse_packets lib blob) user_id).

Definition run_create (args : Args) : M event unit :=
  emit (LogNote (time args)) ;;;
  conn <- call (NewSigner (user_id args) (ecdsa_curve args))
               (HardwareSigner env (user_id args) (ecdsa_curve args)) ;;
  verifying_key <- call (Pubkey conn false) (pubkey env conn false) ;;
  decryption_key <- call (Pubkey conn true) (pubkey env conn true) ;;
  exists_ <- key_exists (user_id args) ;;
  result <-
    (if exists_ : bool then
       emit (LogAdding (ecdsa_curve args) (user_id args)) ;;;
       let signing_key :=
         mkPublicKey (ecdsa_curve args) (time args) verifying_key false in
       ecdh_name <- lift (get_ecdh_curve_name lib (ecdsa_curve args)) ;;
       let encryption_key :=
         mkPublicKey ecdh_name (time args) decryption_key true in
       primary_bytes <- call (ExportPublicKey (user_id args))
                             (export_public_key env (user_id args)) ;;
       result <- call (CreateSubkey primary_bytes signing_key conn)
                      (create_subkey lib primary_bytes signing_key (sign env conn)) ;;
       call (CreateSubkey result encryption_key conn)
            (create_subkey lib result encryption_key (sign env conn))
     else
       emit (LogCreating (ecdsa_curve args) (user_id args)) ;;;
       let primary :=
         mkPublicKey (ecdsa_curve args) (time args) verifying_key false in
       ecdh_name <- lift (get_ecdh_curve_name lib (ecdsa_curve args)) ;;
       let subkey :=
         mkPublicKey ecdh_name (time args) decryption_key true in
       result <- call (CreatePrimary (user_id args) primary conn)
                      (create_primary lib (user_id args) primary (sign env conn)) ;;
       call (CreateSubkey result subkey conn)
            (create_subkey lib result subkey (sign env conn))) ;;
  text <- call (Armor result "PUBLIC KEY BLOCK") (armor lib result "PUBLIC KEY BLOCK") ;;
  call (StdoutWrite text) (stdout_write env text).

End Program.

(** The [create] sub-parser of [main]: [user_id] is positional,
    [--ecdsa-curve] defaults to ['nist256p1'] and [--time] to
    [int(time.time())], the clock reading [now] taken when the parser is
    built. *)
Definition parse_create (uid : string) (curve_flag : option string)
    (time_flag : option Z) (now : Z) : Args :=
  mkArgs uid (default "nist256p1" curve_flag) (default now time_flag).

(** Observations on a trace. *)
Definition is_create_primary (ev : event) : bool :=
  match ev with CreatePrimary _ _ _ => true | _ => false end.

Definition is_create_subkey (ev : event) : bool :=
  match ev with CreateSubkey _ _ _ => true | _ => false end.

Definition is_encoder_call (ev : event) : bool :=
  is_create_primary ev || is_create_subkey ev.

Definition is_pubkey_request (ev : event) : bool :=
  match ev with Pubkey _ _ => true | _ => false end.

Definition is_keyring_read (ev : event) : bool :=
  match ev with ExportPublicKeys => true | _ => false end.

Definition is_stdout_write (ev : event) : bool :=
  match ev with StdoutWrite _ => true | _ => false end.

(** The calls made to [encode], in order. *)
Definition encoder_calls (t : list event) : list event :=
  List.filter is_encoder_call t.

(** The container handed to [protocol.armor], if the run got that far. *)
Fixpoint built_container (t : list event) : option bytes :=
  match t with
  | [] => None
  | Armor blob _ :: _ => Some blob
  | _ :: t' => built_container t'
  end.

(** The events that precede the first read of the keyring. *)
Fixpoint before_lookup (t : list event) : list event :=
  match t with
  | [] => []
  | ExportPublicKeys :: _ => []
  | ev :: t' => ev :: before_lookup t'
  end.

(** The keys handed to the encoder, in order. *)
Fixpoint encoded_keys (t : list event) : list PublicKey :=
  match t with
  | [] => []
  | CreatePrimary _ k _ :: t' => k :: encoded_keys t'
  | CreateSubkey _ k _ :: t' => k :: encoded_keys t'
  | _ :: t' => encoded_keys t'
  end.

(** [p] is a user-id packet whose value is [uid]. *)
Definition names (uid : string) (p : packet) : Prop :=
  p !! "type" = Some (PStr "user_id") /\ p !! "value" = Some (PStr uid).

(** A packet as the decoder builds them: it has a type, and a user-id
    packet has a value. *)
Definition well_formed (p : packet) : Prop :=
  is_Some (p !! "type") /\
  (p !! "type" = Some (PStr "user_id") -> is_Some (p !! "value")).

(** The generator yields the packets [ps], then goes on as [rest]. *)
Fixpoint yield_all (ps : list packet) (rest : packets) : packets :=
  match ps with
  | [] => rest
  | p :: ps' => PYield p (yield_all ps' rest)
  end.

(** The decoder raises before the end of the stream. *)
Fixpoint decode_fails (ps : packets) : bool :=
  match ps with
  | PEnd => false
  | PRaise _ => true
  | PYield _ rest => decode_fails rest
  end.

(** A completed run that added two subkeys to the exported key [start]:
    what every collaborator answered, and the calls made. *)
Definition extend_run (lib : Lib) (env : Env) (args : Args) (t : list event) : Prop :=
  exists conn vk dk en start out1 out2 text,
    let signing_key := mkPublicKey (ecdsa_curve args) (time args) vk false in
    let encryption_key := mkPublicKey en (time args) dk true in
    HardwareSigner env (user_id args) (ecdsa_curve args) = inr conn /\
    pubkey env conn false = inr vk /\
    pubkey env conn true = inr dk /\
    get_ecdh_curve_name lib (ecdsa_curve args) = inr en /\
    export_public_key env (user_id args) = inr start /\
    create_subkey lib start signing_key (sign env conn) = inr out1 /\
    create_subkey lib out1 encryption_key (sign env conn) = inr out2 /\
    armor lib out2 "PUBLIC KEY BLOCK" = inr text /\
    t = [LogNote (time args); NewSigner (user_id args) (ecdsa_curve args);
         Pubkey conn false; Pubkey conn true; ExportPublicKeys;
         LogAdding (ecdsa_curve args) (user_id args);
         ExportPublicKey (user_id args);
         CreateSubkey start signing_key conn;
         CreateSubkey out1 encryption_key conn;
         Armor out2 "PUBLIC KEY BLOCK"; StdoutWrite text].

(** A completed run that created a primary key and its subkey. *)
Definition new_run (lib : Lib) (env : Env) (args : Args) (t : list event) : Prop :=
  exists conn vk dk en out1 out2 text,
    let primary := mkPublicKey (ecdsa_curve args) (time args) vk false in
    let subkey := mkPublicKey en (time args) dk true in
    HardwareSigner env (user_id args) (ecdsa_curve args) = inr conn /\
    pubkey env conn false = inr vk /\
    pubkey env conn true = inr dk /\
    get_ecdh_curve_name lib (ecdsa_curve args) = inr en /\
    create_primary lib (user_id args) primary (sign env conn) = inr out1 /\
    create_subkey lib out1 subkey (sign env conn) = inr out2 /\
    armor lib out2 "PUBLIC KEY BLOCK" = inr text /\
    t = [LogNote (time args); NewSigner (user_id args) (ecdsa_curve args);
         Pubkey conn false; Pubkey conn true; ExportPublicKeys;
         LogCreating (ecdsa_curve args) (user_id args);
         CreatePrimary (user_id args) primary conn;
         CreateSubkey out1 subkey conn;
         Armor out2 "PUBLIC KEY BLOCK"; StdoutWrite text].

(** The order the spec gives to a build: the lookup is over before the
    signer is asked for any verification key, so that a failed lookup
    ends the build without a signer request. *)
Definition lookup_before_signer (run : M event unit) (lookup : result bool) : Prop :=
  Forall (fun ev => is_pubkey_request ev = false) (before_lookup (trace run)) /\
  (forall e, lookup = inl e ->
             outcome run = inl e /\
             Forall (fun ev => is_pubkey_request ev = false) (trace run)).

(** Two worlds whose devices answer alike: the same session for the
    identity, the same verification keys and the same signatures. *)
Definition same_device (e1 e2 : Env) (args : Args) : Prop :=
  HardwareSigner e1 (user_id args) (ecdsa_curve args) =
    HardwareSigner e2 (user_id args) (ecdsa_curve args) /\
  (forall conn role, pubkey e1 conn role = pubkey e2 conn role) /\
  (forall conn digest, sign e1 conn digest = sign e2 conn digest).

(** Two worlds whose keyrings answer the build alike: the lookup of the
    identity ends the same way, and when it finds the identity the key
    exported for it is the same. *)
Definition same_lookup (lib : Lib) (e1 e2 : Env) (args : Args) : Prop :=
  outcome (key_exists lib e1 (user_id args)) =
    outcome (key_exists lib e2 (user_id args)) /\
  (outcome (key_exists lib e1 (user_id args)) = inr true ->
   export_public_key e1 (user_id args) = export_public_key e2 (user_id args)).

(** Two runs build the same container. *)
Definition reproducible (run1 run2 : M event unit) : Prop :=
  built_container (trace run1) = built_container (trace run2).

(** Modelled from the spec: [encode.create_subkey] is not part of the
    sources at hand; the spec's data model has each build step produce a
    container that is a strict extension of the one it consumes (the new
    key and its binding signature are appended). *)
Definition strict_extension (lib : Lib) : Prop :=
  forall primary_bytes subkey signer_func out,
    create_subkey lib primary_bytes subkey signer_func = inr out ->
    exists appended, appended <> [] /\ out = primary_bytes ++ appended.

End Create.

(** ** The [agent] command *)

Module Agent.

(** An accepted client connection and the listening socket. *)
Definition conn : Type := nat.
Definition sock : Type := nat.

(** What iterating [agent.yield_connections(sock)] produces: the next
    accepted connection and the rest, an exception raised by the accept,
    or the end of the generator. *)
Inductive connections : Type :=
| CEnd
| CRaise (e : exn)
| CYield (c : conn) (rest : connections).

Record Env : Type := mkEnv {
  get_agent_sock_path : result string;          (* keyring.get_agent_sock_path() *)
  unix_domain_socket_server : string -> result sock; (* entering the context manager *)
  release_socket : string -> result unit;       (* leaving it *)
  yield_connections : sock -> connections;      (* agent.yield_connections(sock) *)
  handle_connection : conn -> result unit;      (* agent.handle_connection(conn) *)
  close : conn -> result unit                   (* conn.close() *)
}.

Inductive event : Type :=
| SockPath
| Listen (path : string)
| Unlisten (path : string)
| Accept (c : conn)
| Handle (c : conn)
| LogException (e : exn)
| Close (c : conn).

#[global] Instance event_eq_dec : EqDecision event.
Proof. solve_decision. Defined.

Section Program.

Variable env : Env.

(** The body of the [for] loop: one accepted connection. *)
Definition serve_one (c : conn) : M event unit :=
  with_exit
    (try_except_Exception
       (call (Handle c) (handle_connection env c))
       (fun e => emit (LogException e)))
    (call (Close c) (close env c)).

(** [for conn in agent.yield_connections(sock): ...] *)
Fixpoint serve (cs : connections) : M event unit :=
  match cs with
  | CEnd => ret tt
  | CRaise e => raise e
  | CYield c rest =>
      emit (Accept c) ;;;
      serve_one c ;;;
      serve rest
  end.

Definition run_agent : M event unit :=
  sock_path <- call SockPath (get_agent_sock_path env) ;;
  sock <- call (Listen sock_path) (unix_domain_socket_server env sock_path) ;;
  with_exit
    (serve (yield_connections env sock))
    (call (Unlisten sock_path) (release_socket env sock_path)).

End Program.

(** [cs +++ rest]: the connections [cs] arrive first, then the generator
    goes on as [rest]. *)
Fixpoint arrive (cs : list conn) (rest : connections) : connections :=
  match cs with
  | [] => rest
  | c :: cs' => CYield c (arrive cs' rest)
  end.

(** The calls [run_agent] makes for one accepted connection whose handler
    ends with [h]. *)
Definition segment (c : conn) (h : result unit) : list event :=
  match h with
  | inr _ => [Accept c; Handle c; Close c]
  | inl e =>
      if is_Exception e
      then [Accept c; Handle c; LogException e; Close c]
      else [Accept c; Handle c; Close c]
  end.

(** How the body of the loop ends, given how the handler and the close
    ended. *)
Definition after_handler (h cl : result unit) : result unit :=
  match cl with
  | inl e' => inl e'
  | inr _ =>
      match h with
      | inl e => if is_Exception e then inr tt else inl e
      | inr _ => inr tt
      end
  end.

(** The connections the generator yields when it is run to its end. *)
Fixpoint yielded (cs : connections) : list conn :=
  match cs with
  | CYield c rest => c :: yielded rest
  | _ => []
  end.

(** The connections the loop takes from the generator: each one it
    yields, up to and including the first whose handling or closing
    ends the loop. *)
Fixpoint taken (env : Env) (cs : connections) : list conn :=
  match cs with
  | CYield c rest =>
      c :: match after_handler (handle_connection env c) (close env c) with
           | inr _ => taken env rest
           | inl _ => []
           end
  | _ => []
  end.

(** The loop outlives the connections [cs]: each of them is accepted, and
    the loop goes on with whatever the generator produces next. *)
Definition keeps_serving (env : Env) (cs : list conn) (rest : connections) : Prop :=
  (forall c, In c cs -> In (Accept c) (trace (serve env (arrive cs rest)))) /\
  exists t, serve env (arrive cs rest) =
            (t ++ trace (serve env rest), outcome (serve env rest)).

End Agent.

(** ** The entry point: [main] *)

Module Main.

(** What [p.parse_args()] extracts besides [args.verbose]: the
    sub-command and its arguments as given on the command line. *)
Inductive command : Type :=
| CreateCmd (user_id : string) (ecdsa_curve : option string) (time : option Z)
| AgentCmd.

(** The world [main] runs in. *)
Record Env : Type := mkEnv {
  clock : Z;                                      (* int(time.time()) *)
  parse_args : result (nat * command);            (* p.parse_args(), or its SystemExit *)
  setup_logging : nat -> result unit;             (* util.setup_logging(verbosity=...) *)
  gpg_version : result bytes;                     (* keyring.gpg_version() *)
  semver_match : string -> string -> result bool; (* semver.match(version, expr) *)
  create_world : Create.Env;
  agent_world : Agent.Env
}.

Inductive event : Type :=
| ParseArgs
| SetupLogging (verbosity : nat)
| LogExperimental                          (* log.warning('This GPG tool is still ...') *)
| GpgVersion
| SemverMatch (version expr : string)
| LogUnsupported (existing required : string) (* log.error('Existing gpg2 has version ...') *)
| InCreate (ev : Create.event)             (* a call made by run_create *)
| InAgent (ev : Agent.event).              (* a call made by run_agent *)

(** [raw.decode('ascii')]: every byte below 128 is its character; any
    other byte raises [UnicodeDecodeError]. *)
Definition decode_ascii (raw : bytes) : result string :=
  if forallb (fun b => (Byte.to_N b <? 128)%N) raw
  then inr (String.string_of_list_byte raw)
  else inl (Exn true "UnicodeDecodeError").

(** A command run from [main]: its calls, seen as calls of [main]. *)
Definition within {E E' A} (inj : E -> E') (m : M E A) : M E' A :=
  (List.map inj (fst m), snd m).

Definition required_gpg : string := ">=2.1.15".

(** [main]: the default of [--time] is read off the clock while the
    parser is built; [args.run(args)] is [run_create] for [create] and
    [run_agent] for [agent]. *)
Definition main (lib : Create.Lib) (env : Env) : M event unit :=
  parsed <- call ParseArgs (parse_args env) ;;
  call (SetupLogging (fst parsed)) (setup_logging env (fst parsed)) ;;;
  emit LogExperimental ;;;
  raw <- call GpgVersion (gpg_version env) ;;
  existing_gpg <- lift (decode_ascii raw) ;;
  ok <- call (SemverMatch existing_gpg required_gpg)
             (semver_match env existing_gpg required_gpg) ;;
  if ok : bool then
    match snd parsed with
    | CreateCmd uid curve_flag time_flag =>
        within InCreate
          (Create.run_create lib (create_world env)
             (Create.parse_create uid curve_flag time_flag (clock env)))
    | AgentCmd =>
        within InAgent (Agent.run_agent (agent_world env))
    end
  else emit (LogUnsupported existing_gpg required_gpg).

(** A call made by one of the two commands. *)
Definition is_command_event (ev : event) : bool :=
  match ev with InCreate _ | InAgent _ => true | _ => false end.

End Main.

(** ** Further observations on the calls of the two commands *)

Module Observe.

Import Create.

(** The signer session a call of [run_create] uses, if any. *)
Definition event_signer (ev : Create.event) : option signer :=
  match ev with
  | Pubkey c _ => Some c
  | CreatePrimary _ _ c => Some c
  | CreateSubkey _ _ c => Some c
  | _ => None
  end.

Definition is_new_signer (ev : Create.event) : bool :=
  match ev with NewSigner _ _ => true | _ => false end.

Definition is_export_one (ev : Create.event) : bool :=
  match ev with ExportPublicKey _ => true | _ => false end.

Definition is_armor (ev : Create.event) : bool :=
  match ev with Armor _ _ => true | _ => false end.

(** How often a kind of call occurs. *)
Definition count {E} (kind : E -> bool) (t : list E) : nat :=
  length (List.filter kind t).

Definition is_accept (ev : Agent.event) : bool :=
  match ev with Agent.Accept _ => true | _ => false end.

Definition is_handle (ev : Agent.event) : bool :=
  match ev with Agent.Handle _ => true | _ => false end.

Definition is_close (ev : Agent.event) : bool :=
  match ev with Agent.Close _ => true | _ => false end.

Definition is_log_exception (ev : Agent.event) : bool :=
  match ev with Agent.LogException _ => true | _ => false end.

Definition is_unlisten (ev : Agent.event) : bool :=
  match ev with Agent.Unlisten _ => true | _ => false end.

(** The calls of [run_create] among the calls of [main]. *)
Fixpoint create_calls (t : list Main.event) : list Create.event :=
  match t with
  | [] => []
  | Main.InCreate ev :: t' => ev :: create_calls t'
  | _ :: t' => create_calls t'
  end.

(** The generator ends without raising. *)
Fixpoint exhausted (cs : Agent.connections) : bool :=
  match cs with
  | Agent.CEnd => true
  | Agent.CRaise _ => false
  | Agent.CYield _ rest => exhausted rest
  end.

End Observe.

(** ** A small concrete world, used to run the model *)

Module Sample.

Import Create.

Definition of_str (s : string) : bytes := String.list_byte_of_string s.
Definition to_str (b : bytes) : string := String.string_of_list_byte b.

(** The bytes of a container up to its first zero byte: the user id. *)
Fixpoint owner_bytes (blob : bytes) : bytes :=
  match blob with
  | [] => []
  | b :: rest => if decide (b = x00) then [] else b :: owner_bytes rest
  end.

(** A keyring blob is decoded into a public-key packet followed by one
    user-id packet; the empty keyring has no packet. *)
Definition sample_parse (blob : bytes) : packets :=
  match blob with
  | [] => PEnd
  | _ => PYield {[ "type" := PStr "pubkey" ]}
           (PYield (<[ "type" := PStr "user_id" ]>
                      {[ "value" := PStr (to_str (owner_bytes blob)) ]})
              PEnd)
  end.

Definition sample_ecdh_name (curve : string) : result string :=
  if decide (curve = "nist256p1") then inr "nist256p1"
  else if decide (curve = "ed25519") then inr "curve25519"
  else inl (KeyError curve).

(** The encoders append the key and a signature over what precedes; a
    subkey is introduced by the byte [+]. *)
Definition sample_create_primary (uid : string) (pk : PublicKey)
    (signer_func : bytes -> result bytes) : result bytes :=
  match signer_func (of_str uid ++ x00 :: verifying_key pk) with
  | inl e => inl e
  | inr sig => inr (of_str uid ++ x00 :: verifying_key pk ++ sig)
  end.

Definition sample_create_subkey (primary_bytes : bytes) (sk : PublicKey)
    (signer_func : bytes -> result bytes) : result bytes :=
  match signer_func (primary_bytes ++ verifying_key sk) with
  | inl e => inl e
  | inr sig => inr (primary_bytes ++ x2b :: verifying_key sk ++ sig)
  end.

Definition lib : Lib :=
  mkLib sample_parse sample_ecdh_name sample_create_primary sample_create_subkey
        (fun blob kind => inr (kind +:+ ":" +:+ to_str blob)).

(** One device: session 7, a signing key [V], a key-agreement key [D],
    and a signature [S] whatever the digest. *)
Definition device_pubkey (c : signer) (ecdh : bool) : result bytes :=
  inr [if ecdh then x44 else x56].

Definition device_sign (c : signer) (digest : bytes) : result bytes :=
  inr [x53].

(** A keyring without any key. *)
Definition fresh : Env :=
  mkEnv (inr []) (fun _ => inl (Exn true "CalledProcessError"))
        (fun _ _ => inr 7) device_pubkey device_sign (fun _ => inr tt).

(** A keyring that already holds the identity [uid], as a primary key
    [V] with its key-agreement subkey [D]. *)
Definition holding (uid : string) : Env :=
  mkEnv (inr (of_str uid ++ [x00; x56; x53; x2b; x44; x53]))
        (fun u => inr (of_str u ++ [x00; x56; x53; x2b; x44; x53]))
        (fun _ _ => inr 7) device_pubkey device_sign (fun _ => inr tt).

(** A keyring whose export fails ([gpg2] cannot be run). *)
Definition broken_keyring : Env :=
  mkEnv (inl (Exn true "CalledProcessError"))
        (fun _ => inl (Exn true "CalledProcessError"))
        (fun _ _ => inr 7) device_pubkey device_sign (fun _ => inr tt).

(** Another empty keyring on the same device, in a world that differs
    for every other identity. *)
Definition fresh_elsewhere : Env :=
  mkEnv (inr [])
        (fun u => if decide (u = "alice@example.com")
                  then inl (Exn true "CalledProcessError") else inr [x00])
        (fun u _ => if decide (u = "alice@example.com") then inr 7 else inr 8)
        device_pubkey device_sign (fun _ => inr tt).

Definition alice : Args := mkArgs "alice@example.com" "nist256p1" 1000000000.

(** Three connections; the handler of connection 2 fails as [h2] says. *)
Definition agent_env (h2 : result unit) : Agent.Env :=
  Agent.mkEnv (inr "S.gpg-agent") (fun _ => inr 0) (fun _ => inr tt)
    (fun _ => Agent.arrive [1; 2; 3] Agent.CEnd)
    (fun c => if decide (c = 2) then h2 else inr tt)
    (fun _ => inr tt).

(** A world for [main]: [gpg2] reports [version]; the toy matcher
    accepts version 2.1.15 alone. *)
Definition main_env (version : bytes) (cmd : Main.command) (h2 : result unit) : Main.Env :=
  Main.mkEnv 1478167200 (inr (0, cmd)) (fun _ => inr tt) (inr version)
    (fun v _ => inr (bool_decide (v = "2.1.15")))
    fresh (agent_env h2).

(** An empty keyring, the device, and a standard output that is
    closed. *)
Definition closed_stdout : Env :=
  mkEnv (inr []) (fun _ => inl (Exn true "CalledProcessError"))
        (fun _ _ => inr 7) device_pubkey device_sign
        (fun _ => inl (Exn true "BrokenPipeError")).

(** A device that is not plugged in. *)
Definition no_device : Env :=
  mkEnv (inr []) (fun _ => inl (Exn true "CalledProcessError"))
        (fun _ _ => inl (Exn true "IOError")) device_pubkey device_sign (fun _ => inr tt).

(** Three connections; closing connection 2 raises. *)
Definition agent_env_bad_close : Agent.Env :=
  Agent.mkEnv (inr "S.gpg-agent") (fun _ => inr 0) (fun _ => inr tt)
    (fun _ => Agent.arrive [1; 2; 3] Agent.CEnd)
    (fun _ => inr tt)
    (fun c => if decide (c = 2) then inl (Exn true "OSError") else inr tt).

(** Two connections, then the accept raises. *)
Definition agent_env_bad_accept : Agent.Env :=
  Agent.mkEnv (inr "S.gpg-agent") (fun _ => inr 0) (fun _ => inr tt)
    (fun _ => Agent.arrive [1; 2] (Agent.CRaise (Exn true "OSError")))
    (fun _ => inr tt)
    (fun _ => inr tt).

End Sample.

Import Create.

(** ** Proof steps for [run_create] *)

(** Expose the chain of collaborator calls of [run_create]; [eta] splits
    the lookup into its one keyring read and its outcome. *)
Ltac open_run eta :=
  unfold run_create; rewrite eta;
  unfold bind, call, lift, emit, trace; cbn.

(** Case analysis on the answer of the next collaborator. *)
Ltac run_step :=
  match goal with
  | |- context [HardwareSigner ?e ?u ?c] => destruct (HardwareSigner e u c) eqn:?
  | |- context [pubkey ?e ?c ?b] => destruct (pubkey e c b) eqn:?
  | |- context [outcome (key_exists ?l ?e ?u)] =>
      destruct (outcome (key_exists l e u)) as [?|[|]] eqn:?
  | |- context [get_ecdh_curve_name ?l ?c] => destruct (get_ecdh_curve_name l c) eqn:?
  | |- context [export_public_key ?e ?u] => destruct (export_public_key e u) eqn:?
  | |- context [create_primary ?l ?u ?k ?f] => destruct (create_primary l u k f) eqn:?
  | |- context [create_subkey ?l ?b ?k ?f] => destruct (create_subkey l b k f) eqn:?
  | |- context [armor ?l ?b ?k] => destruct (armor l b k) eqn:?
  | |- context [stdout_write ?e ?t] => destruct (stdout_write e t) as [?|[]] eqn:?
  end; cbn.

Ltac run_cases eta := open_run eta; repeat run_step.

(** ** Proof steps for [main] *)

(** Case analysis on the answer of the next collaborator of [main], and
    on the sub-command. *)
Ltac main_step :=
  match goal with
  | |- context [Main.parse_args ?e] =>
      destruct (Main.parse_args e) as [?|[? ?]] eqn:?
  | |- context [Main.setup_logging ?e ?v] =>
      destruct (Main.setup_logging e v) as [?|[]] eqn:?
  | |- context [Main.gpg_version ?e] => destruct (Main.gpg_version e) eqn:?
  | |- context [Main.decode_ascii ?r] => destruct (Main.decode_ascii r) eqn:?
  | |- context [Main.semver_match ?e ?v ?r] =>
      destruct (Main.semver_match e v r) as [?|[|]] eqn:?
  | |- context [match ?c with Main.CreateCmd _ _ _ => _ | Main.AgentCmd => _ end] =>
      destruct c
  end; cbn [fst snd app].

Ltac open_main :=
  unfold Main.main, bind, call, lift, emit, Main.within, trace; cbn [fst snd app].

(** * Identity lookup: [key_exists] *)

Section Lookup.

Variable lib : Lib.
Variable env : Env.

Lemma key_exists_unfold uid :
  key_exists lib env uid =
  ([ExportPublicKeys],
   match export_public_keys env with
   | inl e => inl e
   | inr blob => key_exists_loop (parse_packets lib blob) uid
   end).
Proof.
  unfold key_exists, bind, call, lift.
  destruct (export_public_keys env); reflexivity.
Qed.

Lemma key_exists_trace uid : trace (key_exists lib env uid) = [ExportPublicKeys].
Proof. rewrite key_exists_unfold. reflexivity. Qed.

Lemma names_dec uid (p : packet) : {names uid p} + {~ names uid p}.
Proof. unfold names. apply and_dec; apply decide; apply _. Defined.

(** One turn of the loop on a packet that does not name [uid]. *)
Lemma loop_skip uid (p : packet) rest :
  well_formed p -> ~ names uid p ->
  key_exists_loop (PYield p rest) uid = key_exists_loop rest uid.
Proof.
  intros [[ty Hty] Hval] Hn. simpl. rewrite Hty.
  destruct (decide (ty = PStr "user_id")) as [->|]; [|reflexivity].
  destruct (Hval Hty) as [v Hv]. rewrite Hv.
  destruct (decide (v = PStr uid)) as [->|]; [|reflexivity].
  exfalso. apply Hn. split; assumption.
Qed.

(** One turn of the loop on a packet that names [uid]: [return True]. *)
Lemma loop_hit uid (p : packet) rest :
  names uid p -> key_exists_loop (PYield p rest) uid = inr true.
Proof.
  intros [Hty Hv]. simpl. rewrite Hty, Hv.
  rewrite !decide_True by reflexivity. reflexivity.
Qed.

Lemma loop_found uid ps rest :
  Forall well_formed ps -> Exists (names uid) ps ->
  key_exists_loop (yield_all ps rest) uid = inr true.
Proof.
  induction 1 as [|p ps Hp Hps IH]; intros Hex.
  - inversion Hex.
  - destruct (names_dec uid p) as [Hn|Hn].
    + apply loop_hit, Hn.
    + simpl yield_all. rewrite loop_skip by assumption.
      apply IH. inversion Hex; [contradiction | assumption].
Qed.

Lemma loop_not_found uid ps rest :
  Forall well_formed ps -> ~ Exists (names uid) ps ->
  key_exists_loop (yield_all ps rest) uid = key_exists_loop rest uid.
Proof.
  induction 1 as [|p ps Hp Hps IH]; intros Hex; [reflexivity|].
  simpl yield_all. rewrite loop_skip.
  - apply IH. intros H. apply Hex. apply Exists_cons_tl, H.
  - assumption.
  - intros H. apply Hex. apply Exists_cons_hd, H.
Qed.

Lemma Exists_names_dec uid (ps : list packet) :
  {Exists (names uid) ps} + {~ Exists (names uid) ps}.
Proof. apply Exists_dec, names_dec. Defined.

(** C6.  When the keyring export decodes to the well-formed packets
    [ps], [key_exists uid] returns [True] exactly when some packet of
    [ps] is a user-id packet whose value is [uid], and [False] exactly
    when none is; and it returns [True] at the first such packet,
    whatever the decoder would have produced after it. *)
Theorem key_exists_iff_named (uid : string) (blob : bytes) (ps : list packet) :
  export_public_keys env = inr blob ->
  parse_packets lib blob = yield_all ps PEnd ->
  Forall well_formed ps ->
  (outcome (key_exists lib env uid) = inr true <-> Exists (names uid) ps) /\
  (outcome (key_exists lib env uid) = inr false <-> ~ Exists (names uid) ps) /\
  (forall pre p rest,
      Forall well_formed pre -> names uid p ->
      key_exists_loop (yield_all pre (PYield p rest)) uid = inr true).
Proof.
  intros Hblob Hparse Hwf.
  rewrite key_exists_unfold. unfold outcome. simpl. rewrite Hblob, Hparse.
  split; [|split].
  - destruct (Exists_names_dec uid ps) as [Hex|Hex].
    + rewrite loop_found by assumption. tauto.
    + rewrite loop_not_found by assumption. simpl. split; [discriminate|tauto].
  - destruct (Exists_names_dec uid ps) as [Hex|Hex].
    + rewrite loop_found by assumption. split; [discriminate|tauto].
    + rewrite loop_not_found by assumption. simpl. tauto.
  - intros pre p rest Hpre Hp.
    destruct (Exists_names_dec uid pre) as [Hex|Hex].
    + apply loop_found; assumption.
    + rewrite loop_not_found by assumption. apply loop_hit, Hp.
Qed.

End Lookup.

(** The keyring holding ["alice"] answers [True] for ["alice"] and
    [False] for ["bob"]. *)
Lemma key_exists_iff_named_witness :
  outcome (key_exists Sample.lib (Sample.holding "alice") "alice") = inr true /\
  outcome (key_exists Sample.lib (Sample.holding "alice") "bob") = inr false.
Proof.
  pose (ps := [ ({[ "type" := PStr "pubkey" ]} : packet);
                <[ "type" := PStr "user_id" ]> {[ "value" := PStr "alice" ]} ]).
  assert (Hwf : Forall well_formed ps).
  { repeat constructor; try (eexists; reflexivity); try discriminate. }
  split.
  - apply (key_exists_iff_named Sample.lib (Sample.holding "alice") "alice"
             (Sample.of_str "alice" ++ [x00; x56; x53; x2b; x44; x53]) ps);
      [reflexivity | reflexivity | exact Hwf |].
    apply Exists_cons_tl, Exists_cons_hd. split; reflexivity.
  - apply (key_exists_iff_named Sample.lib (Sample.holding "alice") "bob"
             (Sample.of_str "alice" ++ [x00; x56; x53; x2b; x44; x53]) ps);
      [reflexivity | reflexivity | exact Hwf |].
    intros Hex. inversion Hex as [? ? [Hty _]|? ? Hex']; [discriminate Hty|].
    inversion Hex' as [? ? [_ Hv]|? ? Hex'']; [discriminate Hv|inversion Hex''].
Defined.

(** * The creation workflow: [run_create] *)

Section Workflow.

Variable lib : Lib.
Variable env : Env.

Lemma key_exists_eta uid :
  key_exists lib env uid = ([ExportPublicKeys], outcome (key_exists lib env uid)).
Proof. rewrite key_exists_unfold. reflexivity. Qed.

Local Arguments key_exists : simpl never.
Local Arguments outcome : simpl never.

(** A run that returns went through one of the two branches to its end. *)
Lemma run_create_completed args :
  outcome (run_create lib env args) = inr tt ->
  (outcome (key_exists lib env (user_id args)) = inr true /\
   extend_run lib env args (trace (run_create lib env args))) \/
  (outcome (key_exists lib env (user_id args)) = inr false /\
   new_run lib env args (trace (run_create lib env args))).
Proof.
  unfold outcome at 1, extend_run, new_run. run_cases key_exists_eta.
  all: intros Hdone; try discriminate Hdone.
  all: first
    [ left; split; [reflexivity|];
      do 8 eexists; repeat split; try reflexivity; eassumption
    | right; split; [reflexivity|];
      do 7 eexists; repeat split; try reflexivity; eassumption ].
Qed.

(** C1.  When the lookup answers [True] (the identity is already in the
    keyring), [run_create] makes no [create_primary] call on any path.
    Its encoder calls are, in order, [create_subkey] for the signing
    subkey on the exported primary, then [create_subkey] for the
    key-agreement subkey on the container the first call returned: none
    of them when the run fails earlier, the first alone when it raises,
    and exactly these two in every run that completes. *)
Theorem extend_mode_two_subkey_calls (args : Args) :
  outcome (key_exists lib env (user_id args)) = inr true ->
  Forall (fun ev => is_create_primary ev = false)
         (trace (run_create lib env args)) /\
  (encoder_calls (trace (run_create lib env args)) = [] \/
   (exists conn start signing_key e,
       encoder_calls (trace (run_create lib env args)) =
         [CreateSubkey start signing_key conn] /\
       ecdh signing_key = false /\
       create_subkey lib start signing_key (sign env conn) = inl e) \/
   (exists conn start out1 signing_key encryption_key,
       encoder_calls (trace (run_create lib env args)) =
         [CreateSubkey start signing_key conn;
          CreateSubkey out1 encryption_key conn] /\
       ecdh signing_key = false /\
       ecdh encryption_key = true /\
       create_subkey lib start signing_key (sign env conn) = inr out1)) /\
  (outcome (run_create lib env args) = inr tt ->
   exists conn start out1 signing_key encryption_key,
     encoder_calls (trace (run_create lib env args)) =
       [CreateSubkey start signing_key conn;
        CreateSubkey out1 encryption_key conn] /\
     ecdh signing_key = false /\
     ecdh encryption_key = true /\
     export_public_key env (user_id args) = inr start /\
     create_subkey lib start signing_key (sign env conn) = inr out1).
Proof.
  intros Hfound. split; [|split].
  - open_run key_exists_eta. rewrite Hfound. cbn.
    repeat run_step; repeat constructor.
  - open_run key_exists_eta. rewrite Hfound. cbn.
    repeat run_step;
      first
        [ left; reflexivity
        | right; left; do 4 eexists;
          split; [reflexivity|]; split; [reflexivity|]; eassumption
        | right; right; do 5 eexists;
          split; [reflexivity|]; split; [reflexivity|];
          split; [reflexivity|]; eassumption ].
  - intros Hdone.
    destruct (run_create_completed args Hdone) as [[_ Hrun]|[Hnew _]];
      [|congruence].
    destruct Hrun as (conn & vk & dk & en & start & out1 & out2 & text & Hrun).
    cbv zeta in Hrun.
    destruct Hrun as (_ & _ & _ & _ & Hstart & Hout1 & _ & _ & ->).
    exists conn, start, out1.
    eexists; eexists. split; [reflexivity|].
    repeat split; assumption.
Qed.

(** C2.  When the lookup answers [False], a run that completes makes
    exactly two encoder calls: [create_primary] for a signing key
    carrying the user id and the time of [args], then [create_subkey]
    for a key-agreement key on the container [create_primary] returned,
    both handed the [sign] method of the one signer session.  The
    container given to [armor] is the one [create_subkey] returned, and
    it is not empty when subkey creation extends its input. *)
Theorem new_mode_primary_then_subkey (args : Args) :
  strict_extension lib ->
  outcome (key_exists lib env (user_id args)) = inr false ->
  outcome (run_create lib env args) = inr tt ->
  exists conn vk dk en out1 out2,
    encoder_calls (trace (run_create lib env args)) =
      [CreatePrimary (user_id args)
         (mkPublicKey (ecdsa_curve args) (time args) vk false) conn;
       CreateSubkey out1 (mkPublicKey en (time args) dk true) conn] /\
    create_primary lib (user_id args)
      (mkPublicKey (ecdsa_curve args) (time args) vk false)
      (sign env conn) = inr out1 /\
    create_subkey lib out1 (mkPublicKey en (time args) dk true)
      (sign env conn) = inr out2 /\
    built_container (trace (run_create lib env args)) = Some out2 /\
    out2 <> [].
Proof.
  intros Hext Hnew Hdone.
  destruct (run_create_completed args Hdone) as [[Hfound _]|[_ Hrun]];
    [congruence|].
  destruct Hrun as (conn & vk & dk & en & out1 & out2 & text & Hrun).
  cbv zeta in Hrun.
  destruct Hrun as (_ & _ & _ & _ & Hout1 & Hout2 & _ & ->).
  exists conn, vk, dk, en, out1, out2.
  repeat split; try assumption; try reflexivity.
  destruct (Hext _ _ _ _ Hout2) as (appended & Hne & ->).
  intros Hnil. apply app_eq_nil in Hnil. tauto.
Qed.

(** C8.  Every key-agreement key ([ecdh=True]) that [run_create] hands
    to the encoder, in either branch and on every path, has the curve
    name [get_ecdh_curve_name] returned for the requested curve; a run
    that completes hands over exactly one such key. *)
Theorem encryption_curve_is_companion (args : Args) :
  Forall (fun k => ecdh k = true ->
                   get_ecdh_curve_name lib (ecdsa_curve args) = inr (curve_name k))
         (encoded_keys (trace (run_create lib env args))) /\
  (outcome (run_create lib env args) = inr tt ->
   exists k, List.filter ecdh (encoded_keys (trace (run_create lib env args))) = [k]).
Proof.
  split.
  - run_cases key_exists_eta; repeat constructor; cbn; intros; congruence.
  - intros Hdone.
    destruct (run_create_completed args Hdone) as [[_ Hrun]|[_ Hrun]].
    + destruct Hrun as (conn & vk & dk & en & start & out1 & out2 & text & Hrun).
      cbv zeta in Hrun. destruct Hrun as (_ & _ & _ & _ & _ & _ & _ & _ & ->).
      eexists. reflexivity.
    + destruct Hrun as (conn & vk & dk & en & out1 & out2 & text & Hrun).
      cbv zeta in Hrun. destruct Hrun as (_ & _ & _ & _ & _ & _ & _ & ->).
      eexists. reflexivity.
Qed.

(** The loop never answers [False] on a stream the decoder fails on. *)
Lemma loop_decode_fails ps uid :
  decode_fails ps = true -> key_exists_loop ps uid <> inr false.
Proof.
  induction ps as [| e | p rest IH]; simpl; intros Hfail.
  - discriminate.
  - discriminate.
  - destruct (p !! "type") as [ty|]; [|discriminate].
    destruct (decide (ty = PStr "user_id")); [|auto].
    destruct (p !! "value") as [v|]; [|discriminate].
    destruct (decide (v = PStr uid)); [discriminate|auto].
Qed.

(** C7.  A failure of the keyring export, or of the decoder, comes out
    of [key_exists] as the exception raised, never as [False]; and when
    the lookup raises, [run_create] raises too, having read the keyring
    at most once, called no encoder and written nothing. *)
Theorem lookup_failure_is_raised (args : Args) :
  (forall e, export_public_keys env = inl e ->
             outcome (key_exists lib env (user_id args)) = inl e) /\
  (forall blob, export_public_keys env = inr blob ->
                decode_fails (parse_packets lib blob) = true ->
                outcome (key_exists lib env (user_id args)) <> inr false) /\
  (forall blob ps e,
      export_public_keys env = inr blob ->
      parse_packets lib blob = yield_all ps (PRaise e) ->
      Forall well_formed ps -> ~ Exists (names (user_id args)) ps ->
      outcome (key_exists lib env (user_id args)) = inl e) /\
  (forall e, outcome (key_exists lib env (user_id args)) = inl e ->
      (exists e', outcome (run_create lib env args) = inl e' /\
                  (In ExportPublicKeys (trace (run_create lib env args)) -> e' = e)) /\
      encoder_calls (trace (run_create lib env args)) = [] /\
      List.filter is_stdout_write (trace (run_create lib env args)) = [] /\
      length (List.filter is_keyring_read (trace (run_create lib env args))) <= 1).
Proof.
  split; [|split; [|split]].
  - intros e He. rewrite key_exists_unfold. unfold outcome. simpl.
    rewrite He. reflexivity.
  - intros blob Hblob Hfail. rewrite key_exists_unfold. unfold outcome. simpl.
    rewrite Hblob. apply loop_decode_fails, Hfail.
  - intros blob ps e Hblob Hparse Hwf Hnone.
    rewrite key_exists_unfold. unfold outcome. simpl.
    rewrite Hblob, Hparse, loop_not_found by assumption. reflexivity.
  - intros e Hfail. open_run key_exists_eta. rewrite Hfail. unfold outcome. cbn.
    repeat run_step; (split; [eexists; split; [reflexivity|]|]);
      cbn; try (repeat split; lia);
      intros Hin; intuition congruence.
Qed.

(** C5, as the code has it.  Whenever [run_create] gets to read the
    keyring, it has first built the signer and asked it for both
    verification keys; if the lookup then raises, the run ends with that
    exception right after the keyring read. *)
Theorem signer_requests_before_lookup (args : Args) :
  (In ExportPublicKeys (trace (run_create lib env args)) ->
   exists conn,
     before_lookup (trace (run_create lib env args)) =
       [LogNote (time args); NewSigner (user_id args) (ecdsa_curve args);
        Pubkey conn false; Pubkey conn true]) /\
  (forall e,
      In ExportPublicKeys (trace (run_create lib env args)) ->
      outcome (key_exists lib env (user_id args)) = inl e ->
      exists conn,
        run_create lib env args =
          ([LogNote (time args); NewSigner (user_id args) (ecdsa_curve args);
            Pubkey conn false; Pubkey conn true; ExportPublicKeys], inl e)).
Proof.
  split.
  - run_cases key_exists_eta; intros Hin;
      try (eexists; reflexivity);
      exfalso; cbn in Hin; intuition discriminate.
  - intros e Hin Hfail. revert Hin. open_run key_exists_eta. rewrite Hfail. cbn.
    repeat run_step; intros Hin;
      try (eexists; reflexivity);
      exfalso; cbn in Hin; intuition discriminate.
Qed.

End Workflow.

(** The keyring already holds alice: two subkeys are added. *)
Lemma extend_mode_two_subkey_calls_witness :
  exists conn start out1 signing_key encryption_key,
    encoder_calls (trace (run_create Sample.lib
                            (Sample.holding "alice@example.com") Sample.alice)) =
      [CreateSubkey start signing_key conn;
       CreateSubkey out1 encryption_key conn] /\
    ecdh signing_key = false /\
    ecdh encryption_key = true /\
    export_public_key (Sample.holding "alice@example.com")
      (user_id Sample.alice) = inr start /\
    create_subkey Sample.lib start signing_key
      (sign (Sample.holding "alice@example.com") conn) = inr out1.
Proof.
  apply (extend_mode_two_subkey_calls Sample.lib
           (Sample.holding "alice@example.com") Sample.alice);
    reflexivity.
Defined.

(** No identity yet: a primary key and its subkey are created, as in
    the end-to-end scenario of the spec. *)
Lemma new_mode_primary_then_subkey_witness :
  exists conn vk dk en out1 out2,
    encoder_calls (trace (run_create Sample.lib Sample.fresh Sample.alice)) =
      [CreatePrimary "alice@example.com"
         (mkPublicKey "nist256p1" 1000000000 vk false) conn;
       CreateSubkey out1 (mkPublicKey en 1000000000 dk true) conn] /\
    create_primary Sample.lib "alice@example.com"
      (mkPublicKey "nist256p1" 1000000000 vk false)
      (sign Sample.fresh conn) = inr out1 /\
    create_subkey Sample.lib out1 (mkPublicKey en 1000000000 dk true)
      (sign Sample.fresh conn) = inr out2 /\
    built_container (trace (run_create Sample.lib Sample.fresh Sample.alice)) =
      Some out2 /\
    out2 <> [].
Proof.
  apply (new_mode_primary_then_subkey Sample.lib Sample.fresh Sample.alice);
    [|reflexivity|reflexivity].
  intros primary_bytes subkey signer_func out. simpl.
  unfold Sample.sample_create_subkey.
  destruct (signer_func _) as [e|sig]; [discriminate|].
  intros [= <-]. exists (x2b :: verifying_key subkey ++ sig).
  split; [discriminate|reflexivity].
Defined.

(** Both branches, run: the one key-agreement key is on the companion
    curve. *)
Lemma encryption_curve_is_companion_witness :
  (exists k, List.filter ecdh (encoded_keys (trace
       (run_create Sample.lib Sample.fresh Sample.alice))) = [k]) /\
  (exists k, List.filter ecdh (encoded_keys (trace
       (run_create Sample.lib (Sample.holding "alice@example.com")
          Sample.alice))) = [k]).
Proof.
  split.
  - apply (encryption_curve_is_companion Sample.lib Sample.fresh Sample.alice).
    reflexivity.
  - apply (encryption_curve_is_companion Sample.lib
             (Sample.holding "alice@example.com") Sample.alice).
    reflexivity.
Defined.

(** The export of the keyring fails: the lookup raises, and so does the
    run, without an encoder call. *)
Lemma lookup_failure_is_raised_witness :
  outcome (key_exists Sample.lib Sample.broken_keyring "alice@example.com") =
    inl (Exn true "CalledProcessError") /\
  (exists e', outcome (run_create Sample.lib Sample.broken_keyring Sample.alice) =
              inl e') /\
  encoder_calls (trace (run_create Sample.lib Sample.broken_keyring Sample.alice)) = [].
Proof.
  destruct (lookup_failure_is_raised Sample.lib Sample.broken_keyring Sample.alice)
    as (Hexport & _ & _ & Hrun).
  split; [apply Hexport; reflexivity|].
  destruct (Hrun (Exn true "CalledProcessError") eq_refl)
    as ((e' & He' & _) & Hnone & _).
  split; [exists e'; exact He' | exact Hnone].
Defined.

Lemma signer_requests_before_lookup_witness :
  exists conn,
    run_create Sample.lib Sample.broken_keyring Sample.alice =
      ([LogNote 1000000000; NewSigner "alice@example.com" "nist256p1";
        Pubkey conn false; Pubkey conn true; ExportPublicKeys],
       inl (Exn true "CalledProcessError")).
Proof.
  apply (signer_requests_before_lookup Sample.lib Sample.broken_keyring Sample.alice).
  - vm_compute. tauto.
  - reflexivity.
Defined.

(** C5, as stated, fails: with a keyring whose export fails, the signer
    has been asked for both verification keys by the time the lookup
    raises. *)
Lemma lookup_before_signer_refuted :
  ~ lookup_before_signer
      (run_create Sample.lib Sample.broken_keyring Sample.alice)
      (outcome (key_exists Sample.lib Sample.broken_keyring "alice@example.com")).
Proof.
  intros [Hbefore _]. vm_compute in Hbefore.
  apply Forall_inv_tail, Forall_inv_tail, Forall_inv in Hbefore.
  discriminate Hbefore.
Qed.

(** * Reproducibility *)

Section Reproducibility.

Variable lib : Lib.

Local Arguments key_exists : simpl never.
Local Arguments outcome : simpl never.

(** Two runs on the same arguments, against devices that answer alike
    and keyrings that answer the build alike, differ at most in how the
    final write to the standard output ends. *)
Lemma run_create_same_calls (e1 e2 : Env) (args : Args) :
  same_device e1 e2 args ->
  same_lookup lib e1 e2 args ->
  trace (run_create lib e1 args) = trace (run_create lib e2 args) /\
  ((forall text, stdout_write e1 text = stdout_write e2 text) ->
   run_create lib e1 args = run_create lib e2 args).
Proof.
  intros (Hconn & Hpub & Hsign) (Hlookup & Hexport).
  assert (Hpub' : pubkey e1 = pubkey e2).
  { extensionality conn. extensionality role. apply Hpub. }
  assert (Hsign' : sign e1 = sign e2).
  { extensionality conn. extensionality digest. apply Hsign. }
  unfold run_create.
  rewrite (key_exists_eta lib e1), (key_exists_eta lib e2).
  rewrite Hconn, Hpub', Hsign', <- Hlookup.
  destruct (outcome (key_exists lib e1 (user_id args))) as [e|[|]] eqn:Hfound.
  - split; [|intros _]; unfold bind, call, lift, emit, trace; cbn;
      repeat run_step; reflexivity.
  - rewrite (Hexport eq_refl). split.
    + unfold bind, call, lift, emit, trace; cbn. repeat run_step; reflexivity.
    + intros Hout.
      assert (Hout' : stdout_write e1 = stdout_write e2)
        by (extensionality text; apply Hout).
      rewrite Hout'. reflexivity.
  - split.
    + unfold bind, call, lift, emit, trace; cbn. repeat run_step; reflexivity.
    + intros Hout.
      assert (Hout' : stdout_write e1 = stdout_write e2)
        by (extensionality text; apply Hout).
      rewrite Hout'. reflexivity.
Qed.

(** C9, as the code has it.  Two runs for the same user id, curve and
    [--time] value, against devices that answer alike, whatever the
    clocks read, make the same calls and build the same container as
    soon as the lookup of the identity ends the same way in both
    keyrings and, when it finds the identity, the key exported for it is
    the same; the rest of the keyrings may differ.  The runs then end
    alike too, unless the standard output fails in one of them.  The
    time bound into the keys is the [--time] value when one is given and
    the clock reading otherwise. *)
Theorem reproducible_given_keyring (e1 e2 : Env) (uid : string)
    (curve_flag : option string) (t now1 now2 : Z) :
  same_device e1 e2 (parse_create uid curve_flag (Some t) now1) ->
  same_lookup lib e1 e2 (parse_create uid curve_flag (Some t) now1) ->
  trace (run_create lib e1 (parse_create uid curve_flag (Some t) now1)) =
    trace (run_create lib e2 (parse_create uid curve_flag (Some t) now2)) /\
  reproducible (run_create lib e1 (parse_create uid curve_flag (Some t) now1))
               (run_create lib e2 (parse_create uid curve_flag (Some t) now2)) /\
  ((forall text, stdout_write e1 text = stdout_write e2 text) ->
   run_create lib e1 (parse_create uid curve_flag (Some t) now1) =
     run_create lib e2 (parse_create uid curve_flag (Some t) now2)) /\
  time (parse_create uid curve_flag (Some t) now1) = t /\
  time (parse_create uid curve_flag None now1) = now1.
Proof.
  intros Hdevice Hlookup.
  destruct (run_create_same_calls e1 e2 _ Hdevice Hlookup) as [Hcalls Hruns].
  change (parse_create uid curve_flag (Some t) now2)
    with (parse_create uid curve_flag (Some t) now1).
  split; [exact Hcalls|]. split; [|split; [exact Hruns|split; reflexivity]].
  unfold reproducible. rewrite Hcalls. reflexivity.
Qed.

End Reproducibility.

(** An empty keyring and a keyring that holds bob only: alice is in
    neither, and her key comes out the same, whatever the clocks read. *)
Lemma reproducible_given_keyring_witness :
  reproducible
    (run_create Sample.lib Sample.fresh
       (parse_create "alice@example.com" None (Some 1000000000%Z) 1478167200%Z))
    (run_create Sample.lib (Sample.holding "bob@example.com")
       (parse_create "alice@example.com" None (Some 1000000000%Z) 1478253600%Z)).
Proof.
  apply (reproducible_given_keyring Sample.lib Sample.fresh
           (Sample.holding "bob@example.com")
           "alice@example.com" None 1000000000%Z 1478167200%Z 1478253600%Z).
  - repeat split.
  - split; [reflexivity|]. intros Hfound. discriminate Hfound.
Defined.

(** C9, as stated, fails: the same request against the same device
    builds one container on an empty keyring and another once the
    keyring holds the identity. *)
Lemma same_device_not_reproducible :
  ~ (same_device Sample.fresh (Sample.holding "alice@example.com") Sample.alice ->
     reproducible
       (run_create Sample.lib Sample.fresh Sample.alice)
       (run_create Sample.lib (Sample.holding "alice@example.com") Sample.alice)).
Proof.
  intros Hclaim.
  assert (Hsame : same_device Sample.fresh (Sample.holding "alice@example.com")
                              Sample.alice) by (repeat split).
  specialize (Hclaim Hsame). vm_compute in Hclaim. discriminate Hclaim.
Qed.

(** * The agent loop: [run_agent] *)

Section Loop.

Import Agent.

Variable env : Agent.Env.

(** The body of the loop, call by call. *)
Lemma serve_one_eq (c : conn) :
  serve_one env c =
  (List.tl (segment c (handle_connection env c)),
   after_handler (handle_connection env c) (close env c)).
Proof.
  unfold serve_one, with_exit, try_except_Exception, call, emit, segment,
    after_handler.
  destruct (handle_connection env c) as [e|[]]; simpl.
  - destruct (is_Exception e); simpl; destruct (close env c); reflexivity.
  - destruct (close env c); reflexivity.
Qed.

(** One turn of the loop. *)
Lemma serve_yield (c : conn) (rest : connections) :
  serve env (CYield c rest) =
  match after_handler (handle_connection env c) (close env c) with
  | inl e => (segment c (handle_connection env c), inl e)
  | inr _ => (segment c (handle_connection env c) ++ trace (serve env rest),
              outcome (serve env rest))
  end.
Proof.
  simpl serve. rewrite serve_one_eq. unfold bind, emit, trace, outcome.
  destruct (after_handler _ _) as [e|[]]; simpl.
  - destruct (handle_connection env c) as [e'|[]]; simpl;
      [destruct (is_Exception e')|]; reflexivity.
  - destruct (serve env rest) as [t r].
    destruct (handle_connection env c) as [e'|[]]; simpl;
      [destruct (is_Exception e')|]; reflexivity.
Qed.

Lemma segment_starts_with_accept (c : conn) (h : result unit) :
  In (Accept c) (segment c h).
Proof.
  unfold segment. destruct h as [e|]; [destruct (is_Exception e)|];
    left; reflexivity.
Qed.

(** The loop on connections whose handler fails, if at all, with an
    ordinary exception, and whose close returns. *)
Lemma serve_arrive (cs : list conn) (rest : connections) :
  (forall c e, In c cs -> handle_connection env c = inl e -> is_Exception e = true) ->
  (forall c, In c cs -> close env c = inr tt) ->
  serve env (arrive cs rest) =
  (flat_map (fun c => segment c (handle_connection env c)) cs
     ++ trace (serve env rest),
   outcome (serve env rest)).
Proof.
  induction cs as [|c cs IH]; intros Hordinary Hclose.
  - simpl. destruct (serve env rest); reflexivity.
  - simpl arrive. rewrite serve_yield.
    rewrite (Hclose c) by (left; reflexivity).
    assert (Hgo : after_handler (handle_connection env c) (inr tt) = inr tt).
    { unfold after_handler.
      destruct (handle_connection env c) as [e|[]] eqn:Hh; [|reflexivity].
      rewrite (Hordinary c e) by (auto; left; reflexivity). reflexivity. }
    rewrite Hgo, IH.
    + unfold trace, outcome. simpl. rewrite <- app_assoc. reflexivity.
    + intros c' e Hin. apply Hordinary. right. exact Hin.
    + intros c' Hin. apply Hclose. right. exact Hin.
Qed.

(** [run_agent] is the loop between the acquisition and the release of
    the listening socket; what ends the loop ends [run_agent]. *)
Lemma run_agent_serves (path : string) (s : sock) :
  get_agent_sock_path env = inr path ->
  unix_domain_socket_server env path = inr s ->
  release_socket env path = inr tt ->
  run_agent env =
  ([SockPath; Listen path] ++ trace (serve env (yield_connections env s))
     ++ [Unlisten path],
   outcome (serve env (yield_connections env s))).
Proof.
  intros Hpath Hsock Hrelease.
  unfold run_agent, bind, call, with_exit, trace, outcome.
  rewrite Hpath, Hsock, Hrelease.
  destruct (serve env (yield_connections env s)) as [t r]. reflexivity.
Qed.

(** C3, as the code has it.  While the handler fails, if at all, with
    an exception of class [Exception], and closing a connection does
    not raise, the loop survives any number of connections: each one is
    accepted, handled and closed in turn (the failure logged in
    between), and the loop goes on with the next accept. *)
Theorem ordinary_failures_are_isolated (cs : list conn) (rest : connections) :
  (forall c e, In c cs -> handle_connection env c = inl e -> is_Exception e = true) ->
  (forall c, In c cs -> close env c = inr tt) ->
  serve env (arrive cs rest) =
    (flat_map (fun c => segment c (handle_connection env c)) cs
       ++ trace (serve env rest),
     outcome (serve env rest)) /\
  keeps_serving env cs rest.
Proof.
  intros Hordinary Hclose.
  pose proof (serve_arrive cs rest Hordinary Hclose) as Hrun.
  split; [exact Hrun|]. split.
  - intros c Hin. rewrite Hrun. unfold trace at 1. simpl.
    apply in_or_app. left. apply in_flat_map. exists c.
    split; [exact Hin | apply segment_starts_with_accept].
  - eexists. exact Hrun.
Qed.

(** The calls of the loop are those made for the connections it takes
    from the generator, one connection after the other. *)
Lemma serve_trace_taken (cs : connections) :
  trace (serve env cs) =
  flat_map (fun c => segment c (handle_connection env c)) (taken env cs).
Proof.
  induction cs as [| e | c rest IH]; [reflexivity | reflexivity |].
  rewrite serve_yield. simpl taken.
  destruct (after_handler _ _) as [e|[]].
  - unfold trace. simpl. rewrite app_nil_r. reflexivity.
  - unfold trace at 1. simpl. rewrite IH. reflexivity.
Qed.

(** The loop takes the connections in the order the generator yields
    them, and stops taking them at most once. *)
Lemma taken_prefix (cs : connections) :
  exists later, yielded cs = taken env cs ++ later.
Proof.
  induction cs as [| e | c rest IH].
  - exists []. reflexivity.
  - exists []. reflexivity.
  - simpl. destruct (after_handler _ _) as [e|[]].
    + exists (yielded rest). reflexivity.
    + destruct IH as [later Hlater]. exists later. rewrite Hlater. reflexivity.
Qed.

(** C4.  The calls of the loop are exactly, for each connection it
    takes from the generator and in that order, accept, handle,
    possibly the log of the failure, close: every connection the loop
    accepts is closed exactly once, after its handler has ended
    (returned or raised) and before the next accept, whichever way the
    handler and the close end.  The connections taken are those the
    generator yields, up to and including the first whose handling or
    closing ends the loop. *)
Theorem closed_once_before_next_accept (cs : connections) :
  trace (serve env cs) =
    flat_map (fun c => segment c (handle_connection env c)) (taken env cs) /\
  (exists later, yielded cs = taken env cs ++ later) /\
  (forall c rest, taken env (CYield c rest) <> []) /\
  (forall c h,
      exists logged,
        segment c h = [Accept c; Handle c] ++ logged ++ [Close c] /\
        (logged = [] \/ exists e, logged = [LogException e])).
Proof.
  split; [apply serve_trace_taken|]. split; [apply taken_prefix|].
  split; [intros c rest; discriminate|].
  intros c h. unfold segment.
  destruct h as [e|]; [destruct (is_Exception e) eqn:He|].
  - exists [LogException e]. split; [reflexivity|]. right. exists e. reflexivity.
  - exists []. split; [reflexivity|]. left. reflexivity.
  - exists []. split; [reflexivity|]. left. reflexivity.
Qed.

(** C10.  Only a handler failure of class [Exception] is swallowed.  A
    failure outside that class is not logged and ends the loop: the
    connection is closed, no further connection is accepted, and the
    exception leaves the loop (the one raised by the close, should the
    close raise too). *)
Theorem only_ordinary_failures_swallowed (c : conn) (rest : connections) (e : exn) :
  handle_connection env c = inl e ->
  (is_Exception e = true ->
   close env c = inr tt ->
   serve env (CYield c rest) =
     ([Accept c; Handle c; LogException e; Close c] ++ trace (serve env rest),
      outcome (serve env rest))) /\
  (is_Exception e = false ->
   serve env (CYield c rest) =
     ([Accept c; Handle c; Close c],
      inl (match close env c with inl e' => e' | inr _ => e end))).
Proof.
  intros Hh. rewrite serve_yield, Hh. unfold after_handler, segment. split.
  - intros -> ->. reflexivity.
  - intros ->. destruct (close env c); reflexivity.
Qed.

End Loop.

(** Three connections, the handler of the second raising [ValueError]:
    all three are accepted and the loop is still serving. *)
Lemma ordinary_failures_are_isolated_witness :
  Agent.keeps_serving (Sample.agent_env (inl (Exn true "ValueError")))
    [1; 2; 3] Agent.CEnd.
Proof.
  apply (ordinary_failures_are_isolated
           (Sample.agent_env (inl (Exn true "ValueError"))) [1; 2; 3] Agent.CEnd).
  - intros c e Hin. simpl. destruct (decide (c = 2)); [|discriminate].
    intros [= <-]. reflexivity.
  - intros c Hin. reflexivity.
Defined.

(** Three connections are yielded and the handler of the second raises
    [KeyboardInterrupt]: the first two are taken, each closed once
    before anything else happens, and the third is never accepted. *)
Lemma closed_once_before_next_accept_witness :
  trace (Agent.serve (Sample.agent_env (inl KeyboardInterrupt))
           (Agent.arrive [1; 2; 3] Agent.CEnd)) =
  [Agent.Accept 1; Agent.Handle 1; Agent.Close 1;
   Agent.Accept 2; Agent.Handle 2; Agent.Close 2].
Proof.
  apply (closed_once_before_next_accept
           (Sample.agent_env (inl KeyboardInterrupt))
           (Agent.arrive [1; 2; 3] Agent.CEnd)).
Defined.

(** C3, as stated, fails: when the handler of the second of three
    connections raises [KeyboardInterrupt], the third is never
    accepted. *)
Lemma base_exception_stops_serving :
  ~ Agent.keeps_serving (Sample.agent_env (inl KeyboardInterrupt))
      [1; 2; 3] Agent.CEnd.
Proof.
  intros [Haccepted _].
  specialize (Haccepted 3 ltac:(simpl; tauto)).
  vm_compute in Haccepted.
  intuition discriminate.
Qed.

Lemma only_ordinary_failures_swallowed_witness :
  Agent.serve (Sample.agent_env (inl KeyboardInterrupt))
    (Agent.arrive [2; 3] Agent.CEnd) =
  ([Agent.Accept 2; Agent.Handle 2; Agent.Close 2], inl KeyboardInterrupt).
Proof.
  apply (only_ordinary_failures_swallowed
           (Sample.agent_env (inl KeyboardInterrupt)) 2
           (Agent.arrive [3] Agent.CEnd) KeyboardInterrupt);
    reflexivity.
Defined.

(** * The model, run *)

Example run_agent_survives_ValueError :
  Agent.run_agent (Sample.agent_env (inl (Exn true "ValueError"))) =
  ([Agent.SockPath; Agent.Listen "S.gpg-agent";
    Agent.Accept 1; Agent.Handle 1; Agent.Close 1;
    Agent.Accept 2; Agent.Handle 2;
    Agent.LogException (Exn true "ValueError"); Agent.Close 2;
    Agent.Accept 3; Agent.Handle 3; Agent.Close 3;
    Agent.Unlisten "S.gpg-agent"],
   inr tt).
Proof. reflexivity. Qed.

Example run_agent_stopped_by_KeyboardInterrupt :
  Agent.run_agent (Sample.agent_env (inl KeyboardInterrupt)) =
  ([Agent.SockPath; Agent.Listen "S.gpg-agent";
    Agent.Accept 1; Agent.Handle 1; Agent.Close 1;
    Agent.Accept 2; Agent.Handle 2; Agent.Close 2;
    Agent.Unlisten "S.gpg-agent"],
   inl KeyboardInterrupt).
Proof. reflexivity. Qed.

Example run_create_broken_keyring :
  run_create Sample.lib Sample.broken_keyring Sample.alice =
  ([LogNote 1000000000; NewSigner "alice@example.com" "nist256p1";
    Pubkey 7 false; Pubkey 7 true; ExportPublicKeys],
   inl (Exn true "CalledProcessError")).
Proof. reflexivity. Qed.

Example run_create_fresh_container :
  built_container (trace (run_create Sample.lib Sample.fresh Sample.alice)) =
  Some (Sample.of_str "alice@example.com" ++ [x00; x56; x53; x2b; x44; x53]).
Proof. reflexivity. Qed.

Example run_create_extended_container :
  built_container (trace (run_create Sample.lib
                            (Sample.holding "alice@example.com") Sample.alice)) =
  Some (Sample.of_str "alice@example.com"
          ++ [x00; x56; x53; x2b; x44; x53; x2b; x56; x53; x2b; x44; x53]).
Proof. reflexivity. Qed.

(** * Further properties of the lookup *)

Section LookupMore.

(** On well-formed packets the loop never raises: it answers whether a
    packet names [uid]. *)
Lemma loop_decides uid (ps : list packet) :
  Forall well_formed ps ->
  key_exists_loop (yield_all ps PEnd) uid =
    inr (if Exists_names_dec uid ps then true else false).
Proof.
  intros Hwf. destruct (Exists_names_dec uid ps) as [Hex|Hex].
  - apply loop_found; assumption.
  - rewrite loop_not_found by assumption. reflexivity.
Qed.

(** X1.  Looking a user id up in two keyrings decoded one after the
    other is looking it up in each: on well-formed packets the loop
    never raises, and its answer on [ps1 ++ ps2] is the disjunction of
    its answers on [ps1] and on [ps2]. *)
Theorem lookup_of_concatenation (uid : string) (ps1 ps2 : list packet) :
  Forall well_formed ps1 -> Forall well_formed ps2 ->
  exists b1 b2,
    key_exists_loop (yield_all ps1 PEnd) uid = inr b1 /\
    key_exists_loop (yield_all ps2 PEnd) uid = inr b2 /\
    key_exists_loop (yield_all (ps1 ++ ps2) PEnd) uid = inr (b1 || b2).
Proof.
  intros Hwf1 Hwf2.
  assert (Hwf : Forall well_formed (ps1 ++ ps2)) by (apply Forall_app; auto).
  rewrite !loop_decides by assumption.
  do 2 eexists. split; [reflexivity|]. split; [reflexivity|].
  f_equal.
  destruct (Exists_names_dec uid (ps1 ++ ps2)) as [Hex|Hex];
    destruct (Exists_names_dec uid ps1) as [H1|H1];
    destruct (Exists_names_dec uid ps2) as [H2|H2];
    try reflexivity; exfalso.
  - apply Exists_app in Hex. tauto.
  - apply Hex, Exists_app. tauto.
  - apply Hex, Exists_app. tauto.
  - apply Hex, Exists_app. tauto.
Qed.

(** X2.  The answer does not depend on the order in which the decoder
    yields well-formed packets. *)
Theorem lookup_ignores_packet_order (uid : string) (ps ps' : list packet) :
  Permutation ps ps' ->
  Forall well_formed ps ->
  key_exists_loop (yield_all ps PEnd) uid =
    key_exists_loop (yield_all ps' PEnd) uid.
Proof.
  intros Hperm Hwf.
  assert (Hwf' : Forall well_formed ps').
  { rewrite List.Forall_forall in *. intros p Hin. apply Hwf.
    apply (Permutation_in p (Permutation_sym Hperm) Hin). }
  rewrite !loop_decides by assumption. f_equal.
  destruct (Exists_names_dec uid ps) as [Hex|Hex];
    destruct (Exists_names_dec uid ps') as [Hex'|Hex']; try reflexivity; exfalso.
  - apply Hex'. rewrite List.Exists_exists in *. destruct Hex as (p & Hin & Hp).
    exists p. split; [apply (Permutation_in p Hperm Hin) | exact Hp].
  - apply Hex. rewrite List.Exists_exists in *. destruct Hex' as (p & Hin & Hp).
    exists p. split; [apply (Permutation_in p (Permutation_sym Hperm) Hin) | exact Hp].
Qed.

(** X3.  After well-formed packets that do not name [uid], a packet
    without a ['type'] raises [KeyError], and so does a user-id packet
    without a ['value'], even when a packet naming [uid] follows; a
    packet of another type is skipped without its ['value'] being
    looked up. *)
Theorem malformed_packet_raises_KeyError (uid : string) (pre : list packet)
    (p : packet) (rest : packets) :
  Forall well_formed pre -> ~ Exists (names uid) pre ->
  (p !! "type" = None ->
   key_exists_loop (yield_all pre (PYield p rest)) uid = inl (KeyError "type")) /\
  (p !! "type" = Some (PStr "user_id") -> p !! "value" = None ->
   key_exists_loop (yield_all pre (PYield p rest)) uid = inl (KeyError "value")) /\
  (forall ty, p !! "type" = Some ty -> ty <> PStr "user_id" ->
   key_exists_loop (yield_all pre (PYield p rest)) uid =
     key_exists_loop rest uid).
Proof.
  intros Hwf Hnone. rewrite loop_not_found by assumption. simpl.
  split; [|split].
  - intros ->. reflexivity.
  - intros -> ->. rewrite decide_True by reflexivity. reflexivity.
  - intros ty -> Hty. rewrite decide_False by assumption. reflexivity.
Qed.

End LookupMore.

Lemma lookup_of_concatenation_witness :
  exists b1 b2,
    key_exists_loop (yield_all [ {[ "type" := PStr "pubkey" ]} ] PEnd) "alice" = inr b1 /\
    key_exists_loop
      (yield_all [ <[ "type" := PStr "user_id" ]> {[ "value" := PStr "alice" ]} ] PEnd)
      "alice" = inr b2 /\
    key_exists_loop
      (yield_all ([ {[ "type" := PStr "pubkey" ]} ] ++
                  [ <[ "type" := PStr "user_id" ]> {[ "value" := PStr "alice" ]} ]) PEnd)
      "alice" = inr (b1 || b2).
Proof.
  apply (lookup_of_concatenation "alice").
  - repeat constructor; try (eexists; reflexivity); try discriminate.
  - repeat constructor; try (eexists; reflexivity); try discriminate.
Defined.

Lemma lookup_ignores_packet_order_witness :
  key_exists_loop
    (yield_all [ {[ "type" := PStr "pubkey" ]};
                 <[ "type" := PStr "user_id" ]> {[ "value" := PStr "alice" ]} ] PEnd)
    "alice" =
  key_exists_loop
    (yield_all [ <[ "type" := PStr "user_id" ]> {[ "value" := PStr "alice" ]};
                 {[ "type" := PStr "pubkey" ]} ] PEnd)
    "alice".
Proof.
  apply (lookup_ignores_packet_order "alice").
  - apply perm_swap.
  - repeat constructor; try (eexists; reflexivity); try discriminate.
Defined.

(** A packet without a type hides the user-id packet behind it. *)
Lemma malformed_packet_raises_KeyError_witness :
  key_exists_loop
    (yield_all [ {[ "type" := PStr "pubkey" ]} ]
       (PYield {[ "tag" := PInt 13 ]}
          (PYield (<[ "type" := PStr "user_id" ]> {[ "value" := PStr "alice" ]})
             PEnd)))
    "alice" = inl (KeyError "type").
Proof.
  apply (malformed_packet_raises_KeyError "alice"
           [ {[ "type" := PStr "pubkey" ]} ] {[ "tag" := PInt 13 ]}).
  - repeat constructor; try (eexists; reflexivity); try discriminate.
  - intros Hex. inversion Hex as [? ? [Hty _]|? ? Hex']; [discriminate Hty|].
    inversion Hex'.
  - reflexivity.
Defined.

(** * Further properties of the creation workflow *)

Section WorkflowMore.

Import Observe.

Variable lib : Lib.
Variable env : Env.

Local Arguments key_exists : simpl never.
Local Arguments outcome : simpl never.

(** X4.  Every key [run_create] hands to the encoder, primary or
    subkey, in either branch and on every path, is created at
    [args.time]; a run that completes hands over two keys. *)
Theorem encoded_keys_carry_time (args : Args) :
  Forall (fun k => created k = time args)
         (encoded_keys (trace (run_create lib env args))) /\
  (outcome (run_create lib env args) = inr tt ->
   length (encoded_keys (trace (run_create lib env args))) = 2).
Proof.
  split.
  - run_cases (key_exists_eta lib env); repeat constructor.
  - intros Hdone.
    destruct (run_create_completed lib env args Hdone) as [[_ Hrun]|[_ Hrun]].
    + destruct Hrun as (conn & vk & dk & en & start & out1 & out2 & text & Hrun).
      cbv zeta in Hrun. destruct Hrun as (_ & _ & _ & _ & _ & _ & _ & _ & ->).
      reflexivity.
    + destruct Hrun as (conn & vk & dk & en & out1 & out2 & text & Hrun).
      cbv zeta in Hrun. destruct Hrun as (_ & _ & _ & _ & _ & _ & _ & ->).
      reflexivity.
Qed.

(** X5.  Every key handed to the encoder carries the verification key
    the signer session returned for that key's own role ([ecdh=False]
    for a signing key, [ecdh=True] for a key-agreement key), and a
    signing key is on the requested curve: the two device keys are
    never swapped. *)
Theorem encoded_keys_come_from_device (args : Args) :
  Forall (fun k =>
            exists conn,
              HardwareSigner env (user_id args) (ecdsa_curve args) = inr conn /\
              pubkey env conn (ecdh k) = inr (verifying_key k) /\
              (ecdh k = false -> curve_name k = ecdsa_curve args))
         (encoded_keys (trace (run_create lib env args))).
Proof.
  run_cases (key_exists_eta lib env);
    repeat (apply List.Forall_cons;
            [eexists; cbn; split; [reflexivity|];
             split; [eassumption | intros; first [reflexivity | discriminate]]|]);
    apply List.Forall_nil.
Qed.


(** X7.  The keyring is read only once the signer session exists and
    has returned both verification keys: a device that is missing, or
    that refuses a key, ends the run before [gpg2] is asked for
    anything. *)
Theorem keyring_read_only_after_device (args : Args) :
  In ExportPublicKeys (trace (run_create lib env args)) ->
  exists conn vk dk,
    HardwareSigner env (user_id args) (ecdsa_curve args) = inr conn /\
    pubkey env conn false = inr vk /\
    pubkey env conn true = inr dk.
Proof.
  run_cases (key_exists_eta lib env); intros Hin; cbn in Hin;
    try solve [exfalso; intuition discriminate];
    do 3 eexists; (split; [reflexivity|]); split; eassumption.
Qed.

(** X8.  An encoder call is made only when the lookup has returned and
    [get_ecdh_curve_name] knows the requested curve; when the identity
    exists, only when its key could be exported too.  For a curve
    without a companion nothing is ever encoded. *)
Theorem encoding_needs_lookup_and_curve (args : Args) :
  encoder_calls (trace (run_create lib env args)) <> [] ->
  exists found en,
    outcome (key_exists lib env (user_id args)) = inr found /\
    get_ecdh_curve_name lib (ecdsa_curve args) = inr en /\
    (found = true ->
     exists start, export_public_key env (user_id args) = inr start).
Proof.
  run_cases (key_exists_eta lib env); intros Hcalls;
    try solve [exfalso; apply Hcalls; reflexivity];
    do 2 eexists; (split; [reflexivity|]); (split; [reflexivity|]);
    intros Hfound; first [discriminate Hfound | eexists; reflexivity].
Qed.

(** X9.  When the lookup answers [False], no path of [run_create] asks
    the keyring for the key of the identity, and its encoder calls are,
    in order, [create_primary] for the user id, then [create_subkey] on
    the container [create_primary] returned: none of them when the run
    fails earlier, the first alone when it raises. *)
Theorem new_mode_calls_prefix (args : Args) :
  outcome (key_exists lib env (user_id args)) = inr false ->
  count is_export_one (trace (run_create lib env args)) = 0 /\
  (encoder_calls (trace (run_create lib env args)) = [] \/
   (exists conn primary e,
       encoder_calls (trace (run_create lib env args)) =
         [CreatePrimary (user_id args) primary conn] /\
       create_primary lib (user_id args) primary (sign env conn) = inl e) \/
   (exists conn primary out1 subkey,
       encoder_calls (trace (run_create lib env args)) =
         [CreatePrimary (user_id args) primary conn;
          CreateSubkey out1 subkey conn] /\
       create_primary lib (user_id args) primary (sign env conn) = inr out1)).
Proof.
  intros Hnew. unfold count.
  open_run (key_exists_eta lib env). rewrite Hnew. cbn.
  repeat run_step; (split; [reflexivity|]);
    first
      [ left; reflexivity
      | right; left; do 3 eexists; split; [reflexivity|]; eassumption
      | right; right; do 4 eexists; split; [reflexivity|]; eassumption ].
Qed.

(** X10.  A run builds exactly one signer session, for the user id and
    curve of [args], and every later call that involves a signer (both
    key requests and every encoder call) uses that session. *)
Theorem one_signer_session (args : Args) :
  count is_new_signer (trace (run_create lib env args)) = 1 /\
  Forall (fun ev =>
            forall c, event_signer ev = Some c ->
                      HardwareSigner env (user_id args) (ecdsa_curve args) = inr c)
         (trace (run_create lib env args)).
Proof.
  unfold count. run_cases (key_exists_eta lib env);
    (split; [reflexivity|]);
    repeat (apply List.Forall_cons;
            [cbn; intros c Hc; first [discriminate Hc | injection Hc as <-; reflexivity]|]);
    apply List.Forall_nil.
Qed.

(** X11.  Nothing is retried: whatever fails, a run asks the signer for
    at most two keys, lists the keyring at most once, exports the key
    of the identity at most once, and calls the encoder at most twice,
    [create_primary] at most once. *)
Theorem run_create_call_bounds (args : Args) :
  count is_pubkey_request (trace (run_create lib env args)) <= 2 /\
  count is_keyring_read (trace (run_create lib env args)) <= 1 /\
  count is_export_one (trace (run_create lib env args)) <= 1 /\
  count is_encoder_call (trace (run_create lib env args)) <= 2 /\
  count is_create_primary (trace (run_create lib env args)) <= 1 /\
  count is_armor (trace (run_create lib env args)) <= 1.
Proof.
  unfold count. run_cases (key_exists_eta lib env); cbn; lia.
Qed.

End WorkflowMore.

(** The keyring is empty and the device answers: the keyring is read. *)
Lemma keyring_read_only_after_device_witness :
  exists conn vk dk,
    HardwareSigner Sample.fresh "alice@example.com" "nist256p1" = inr conn /\
    pubkey Sample.fresh conn false = inr vk /\
    pubkey Sample.fresh conn true = inr dk.
Proof.
  apply (keyring_read_only_after_device Sample.lib Sample.fresh Sample.alice).
  vm_compute. tauto.
Defined.

Lemma encoding_needs_lookup_and_curve_witness :
  exists found en,
    outcome (key_exists Sample.lib Sample.fresh "alice@example.com") = inr found /\
    get_ecdh_curve_name Sample.lib "nist256p1" = inr en /\
    (found = true ->
     exists start, export_public_key Sample.fresh "alice@example.com" = inr start).
Proof.
  apply (encoding_needs_lookup_and_curve Sample.lib Sample.fresh Sample.alice).
  vm_compute. discriminate.
Defined.

Lemma new_mode_calls_prefix_witness :
  Observe.count Observe.is_export_one
    (trace (run_create Sample.lib Sample.fresh Sample.alice)) = 0.
Proof.
  apply (new_mode_calls_prefix Sample.lib Sample.fresh Sample.alice).
  reflexivity.
Defined.

(** * Further properties of the agent loop *)

Section LoopMore.

Import Agent Observe.

Variable env : Agent.Env.

Lemma count_app {E} (kind : E -> bool) (t1 t2 : list E) :
  count kind (t1 ++ t2) = count kind t1 + count kind t2.
Proof. unfold count. rewrite List.filter_app, List.length_app. reflexivity. Qed.

(** The calls made for one connection, counted. *)
Lemma segment_counts (c : conn) (h : result unit) :
  count is_accept (segment c h) = 1 /\
  count is_handle (segment c h) = 1 /\
  count is_close (segment c h) = 1 /\
  count is_log_exception (segment c h) <= 1 /\
  count is_unlisten (segment c h) = 0.
Proof.
  unfold segment. destruct h as [e|]; [destruct (is_Exception e)|];
    cbn; repeat split; lia.
Qed.

(** How often the calls made for connection [c0] concern connection
    [c]: once each when [c0] is [c], never otherwise. *)
Lemma segment_occurrences (c0 c : conn) (h : result unit) :
  count_occ event_eq_dec (segment c0 h) (Accept c) = count_occ Nat.eq_dec [c0] c /\
  count_occ event_eq_dec (segment c0 h) (Handle c) = count_occ Nat.eq_dec [c0] c /\
  count_occ event_eq_dec (segment c0 h) (Close c) = count_occ Nat.eq_dec [c0] c.
Proof.
  unfold segment.
  destruct h as [e|]; [destruct (is_Exception e)|]; cbn [count_occ];
    repeat match goal with
           | |- context [event_eq_dec ?a ?b] => destruct (event_eq_dec a b)
           | |- context [Nat.eq_dec ?a ?b] => destruct (Nat.eq_dec a b)
           end;
    try discriminate; repeat split; congruence.
Qed.

(** X12.  Whatever the generator yields and however handlers and closes
    end, and for every connection [c]: the loop accepts [c], calls the
    handler on [c] and closes [c] exactly as many times as it took [c]
    from the generator, once each time and never for a connection it
    did not take. *)
Theorem handler_called_once_per_connection (cs : connections) (c : conn) :
  count_occ event_eq_dec (trace (serve env cs)) (Accept c) =
    count_occ Nat.eq_dec (taken env cs) c /\
  count_occ event_eq_dec (trace (serve env cs)) (Handle c) =
    count_occ Nat.eq_dec (taken env cs) c /\
  count_occ event_eq_dec (trace (serve env cs)) (Close c) =
    count_occ Nat.eq_dec (taken env cs) c.
Proof.
  induction cs as [| e | c0 rest IH];
    [repeat split; reflexivity | repeat split; reflexivity |].
  rewrite serve_yield.
  pose proof (segment_occurrences c0 c (handle_connection env c0)) as (Ha & Hh & Hc).
  change (taken env (CYield c0 rest))
    with ([c0] ++ match after_handler (handle_connection env c0) (close env c0) with
                  | inr _ => taken env rest
                  | inl _ => []
                  end).
  destruct (after_handler _ _) as [e|[]]; unfold trace in *; cbn [fst].
  - rewrite app_nil_r. repeat split; assumption.
  - destruct IH as (IHa & IHh & IHc).
    rewrite !count_occ_app, Ha, Hh, Hc, IHa, IHh, IHc. repeat split; reflexivity.
Qed.

(** Where a logged failure of one connection comes from. *)
Lemma segment_logs (c : conn) (h : result unit) (e : exn) :
  In (LogException e) (segment c h) <-> h = inl e /\ is_Exception e = true.
Proof.
  unfold segment. destruct h as [e'|u]; [destruct (is_Exception e') eqn:He'|];
    cbn; split.
  - intros [H|[H|[H|[H|[]]]]]; try discriminate H.
    injection H as <-. split; [reflexivity | exact He'].
  - intros [[= <-] _]. tauto.
  - intros [H|[H|[H|[]]]]; discriminate H.
  - intros [[= <-] He]. congruence.
  - intros [H|[H|[H|[]]]]; discriminate H.
  - intros [H _]. discriminate H.
Qed.

Lemma segment_handles (c c' : conn) (h : result unit) :
  In (Handle c') (segment c h) <-> c' = c.
Proof.
  unfold segment. destruct h as [e'|u]; [destruct (is_Exception e')|];
    cbn; split; intros H; intuition (try discriminate; try congruence).
Qed.

(** X13.  The loop logs a failure exactly when the handler of a
    connection it handled raised it and it is of class [Exception]:
    every swallowed failure is logged, and nothing else is. *)
Theorem logged_exactly_ordinary_failures (cs : connections) (e : exn) :
  In (LogException e) (trace (serve env cs)) <->
  exists c, In (Handle c) (trace (serve env cs)) /\
            handle_connection env c = inl e /\ is_Exception e = true.
Proof.
  induction cs as [| e0 | c rest IH].
  - cbn. split; [tauto | intros (c & [] & _)].
  - cbn. split; [tauto | intros (c & [] & _)].
  - rewrite serve_yield.
    destruct (after_handler _ _) as [e1|[]]; unfold trace in *; simpl fst.
    + rewrite segment_logs. split.
      * intros [Hh He]. exists c. rewrite segment_handles. tauto.
      * intros (c' & Hin & Hh & He). apply segment_handles in Hin. subst c'. tauto.
    + rewrite in_app_iff, segment_logs, IH. split.
      * intros [[Hh He]|(c' & Hin & Hh & He)].
        -- exists c. rewrite in_app_iff, segment_handles. tauto.
        -- exists c'. rewrite in_app_iff. tauto.
      * intros (c' & Hin & Hh & He). rewrite in_app_iff, segment_handles in Hin.
        destruct Hin as [->|Hin]; [left; tauto|].
        right. exists c'. tauto.
Qed.

(** X14.  The loop returns normally only when the generator is
    exhausted without raising; then every connection it yielded was
    served in order, every close returned, and no handler raised
    anything but an [Exception]. *)
Theorem normal_return_means_all_served (cs : connections) :
  outcome (serve env cs) = inr tt ->
  exhausted cs = true /\
  trace (serve env cs) =
    flat_map (fun c => segment c (handle_connection env c)) (yielded cs) /\
  Forall (fun c => close env c = inr tt /\
                   forall e, handle_connection env c = inl e -> is_Exception e = true)
         (yielded cs).
Proof.
  induction cs as [| e | c rest IH].
  - intros _. repeat split. constructor.
  - intros H. discriminate H.
  - rewrite serve_yield.
    destruct (after_handler _ _) as [e1|[]] eqn:Hafter; [intros H; discriminate H|].
    unfold outcome at 1, trace at 1. simpl. intros Hrest.
    destruct (IH Hrest) as (Hex & Ht & Hall).
    split; [exact Hex|]. split; [rewrite Ht; reflexivity|].
    constructor; [|exact Hall].
    unfold after_handler in Hafter.
    destruct (close env c) as [e2|[]]; [discriminate Hafter|].
    split; [reflexivity|].
    intros e Hh. rewrite Hh in Hafter.
    destruct (is_Exception e); [reflexivity | discriminate Hafter].
Qed.

(** X15.  [close] is called outside the [try]: when closing a
    connection raises, the loop ends with that exception, whether the
    handler had returned or had raised and been logged; the
    connections served before stay served, and no further connection
    is accepted. *)
Theorem close_failure_ends_loop (served : list conn) (c : conn)
    (rest : connections) (e' : exn) :
  (forall c0 e, In c0 served -> handle_connection env c0 = inl e -> is_Exception e = true) ->
  (forall c0, In c0 served -> close env c0 = inr tt) ->
  close env c = inl e' ->
  serve env (arrive served (CYield c rest)) =
    (flat_map (fun c0 => segment c0 (handle_connection env c0)) served
       ++ segment c (handle_connection env c),
     inl e').
Proof.
  intros Hordinary Hcloses Hclose.
  rewrite (serve_arrive env served _ Hordinary Hcloses).
  rewrite serve_yield, Hclose. reflexivity.
Qed.

(** The loop itself never releases the socket. *)
Lemma serve_never_unlistens (cs : connections) :
  count is_unlisten (trace (serve env cs)) = 0.
Proof.
  induction cs as [| e | c rest IH]; [reflexivity | reflexivity |].
  rewrite serve_yield.
  pose proof (segment_counts c (handle_connection env c)) as (_ & _ & _ & _ & Hu).
  destruct (after_handler _ _) as [e|[]]; unfold trace at 1; simpl fst.
  - exact Hu.
  - rewrite count_app, Hu, IH. reflexivity.
Qed.

(** X16.  Once the listening socket is acquired, [run_agent] releases it
    exactly once, as its last call, however the loop ended; it ends as
    the loop did, unless the release itself raises. *)
Theorem socket_released_on_every_path (path : string) (s : sock) :
  get_agent_sock_path env = inr path ->
  unix_domain_socket_server env path = inr s ->
  List.last (trace (run_agent env)) SockPath = Unlisten path /\
  count is_unlisten (trace (run_agent env)) = 1 /\
  outcome (run_agent env) =
    match release_socket env path with
    | inl e' => inl e'
    | inr _ => outcome (serve env (yield_connections env s))
    end.
Proof.
  intros Hpath Hsock.
  pose proof (serve_never_unlistens (yield_connections env s)) as Hnone.
  assert (Hrun : run_agent env =
            ([SockPath; Listen path]
               ++ trace (serve env (yield_connections env s)) ++ [Unlisten path],
             match release_socket env path with
             | inl e' => inl e'
             | inr _ => outcome (serve env (yield_connections env s))
             end)).
  { unfold run_agent, bind, call, with_exit, trace, outcome.
    rewrite Hpath, Hsock.
    destruct (serve env (yield_connections env s)) as [t r].
    destruct (release_socket env path) as [e'|[]]; reflexivity. }
  rewrite Hrun. unfold trace at 1 3, outcome at 1. cbn [fst snd].
  split; [|split; [|reflexivity]].
  - rewrite app_assoc. apply List.last_last.
  - rewrite !count_app, Hnone. reflexivity.
Qed.

Lemma serve_accepts_yielded (cs : connections) (c : conn) :
  In (Accept c) (trace (serve env cs)) -> In c (yielded cs).
Proof.
  induction cs as [| e | c0 rest IH]; [intros [] | intros [] |].
  rewrite serve_yield.
  assert (Hseg : In (Accept c) (segment c0 (handle_connection env c0)) -> c = c0).
  { unfold segment. destruct (handle_connection env c0) as [e|];
      [destruct (is_Exception e)|]; cbn;
      intros H; intuition (try discriminate; try congruence). }
  destruct (after_handler _ _) as [e|[]]; unfold trace at 1; simpl fst; simpl yielded.
  - intros H. left. symmetry. apply Hseg, H.
  - rewrite in_app_iff. intros [H|H]; [left; symmetry; apply Hseg, H|].
    right. apply IH, H.
Qed.

(** X17.  No connection is accepted unless the socket path was found
    and the listening socket acquired, and every accepted connection is
    one the generator of that socket yields. *)
Theorem connections_need_the_socket (c : conn) :
  In (Accept c) (trace (run_agent env)) ->
  exists path s,
    get_agent_sock_path env = inr path /\
    unix_domain_socket_server env path = inr s /\
    In c (yielded (yield_connections env s)).
Proof.
  unfold run_agent, bind, call, with_exit, trace.
  destruct (get_agent_sock_path env) as [e|path]; simpl.
  - intros [H|[]]. discriminate H.
  - destruct (unix_domain_socket_server env path) as [e|s] eqn:Hsock; simpl.
    + intros [H|[H|[]]]; discriminate H.
    + pose proof (serve_accepts_yielded (yield_connections env s) c) as Hacc.
      unfold trace in Hacc.
      destruct (serve env (yield_connections env s)) as [t r]. simpl in *.
      intros [H|[H|H]]; try discriminate H.
      apply in_app_iff in H. destruct H as [H|[H|[]]]; [|discriminate H].
      exists path, s. split; [reflexivity|]. split; [exact Hsock|].
      apply Hacc, H.
Qed.

(** X18.  A failure of the accept itself ends [run_agent] with that
    exception: the connections served before it stay served and
    closed, and the socket is released before the exception leaves. *)
Theorem accept_failure_stops_agent (path : string) (s : sock)
    (cs : list conn) (e : exn) :
  get_agent_sock_path env = inr path ->
  unix_domain_socket_server env path = inr s ->
  release_socket env path = inr tt ->
  yield_connections env s = arrive cs (CRaise e) ->
  (forall c e', In c cs -> handle_connection env c = inl e' -> is_Exception e' = true) ->
  (forall c, In c cs -> close env c = inr tt) ->
  run_agent env =
    ([SockPath; Listen path]
       ++ flat_map (fun c => segment c (handle_connection env c)) cs
       ++ [Unlisten path],
     inl e).
Proof.
  intros Hpath Hsock Hrelease Hyield Hordinary Hclose.
  rewrite (run_agent_serves env path s Hpath Hsock Hrelease), Hyield.
  rewrite (serve_arrive env cs (CRaise e) Hordinary Hclose).
  unfold trace, outcome. simpl. rewrite app_nil_r. reflexivity.
Qed.

End LoopMore.

(** Connections 1 to 3 with a handler that fails on 2 only: the loop
    returns when the generator is exhausted. *)
Lemma normal_return_means_all_served_witness :
  Observe.exhausted (Agent.arrive [1; 2; 3] Agent.CEnd) = true.
Proof.
  apply (normal_return_means_all_served
           (Sample.agent_env (inl (Exn true "ValueError")))
           (Agent.arrive [1; 2; 3] Agent.CEnd)).
  reflexivity.
Defined.

(** Closing connection 2 raises: connection 3 is never accepted. *)
Lemma close_failure_ends_loop_witness :
  Agent.serve Sample.agent_env_bad_close (Agent.arrive [1; 2; 3] Agent.CEnd) =
  ([Agent.Accept 1; Agent.Handle 1; Agent.Close 1;
    Agent.Accept 2; Agent.Handle 2; Agent.Close 2],
   inl (Exn true "OSError")).
Proof.
  apply (close_failure_ends_loop Sample.agent_env_bad_close [1] 2
           (Agent.arrive [3] Agent.CEnd) (Exn true "OSError")).
  - intros c0 e _ H. discriminate H.
  - intros c0 [<-|[]]. reflexivity.
  - reflexivity.
Defined.

(** The handler raises [KeyboardInterrupt]: the socket is released all
    the same. *)
Lemma socket_released_on_every_path_witness :
  List.last (trace (Agent.run_agent (Sample.agent_env (inl KeyboardInterrupt))))
            Agent.SockPath = Agent.Unlisten "S.gpg-agent".
Proof.
  apply (socket_released_on_every_path
           (Sample.agent_env (inl KeyboardInterrupt)) "S.gpg-agent" 0);
    reflexivity.
Defined.

Lemma connections_need_the_socket_witness :
  exists path s,
    Agent.get_agent_sock_path (Sample.agent_env (inr tt)) = inr path /\
    Agent.unix_domain_socket_server (Sample.agent_env (inr tt)) path = inr s /\
    In 3 (Agent.yielded (Agent.yield_connections (Sample.agent_env (inr tt)) s)).
Proof.
  apply (connections_need_the_socket (Sample.agent_env (inr tt)) 3).
  vm_compute. tauto.
Defined.

(** Two connections are served, then the accept raises. *)
Lemma accept_failure_stops_agent_witness :
  Agent.run_agent Sample.agent_env_bad_accept =
  ([Agent.SockPath; Agent.Listen "S.gpg-agent";
    Agent.Accept 1; Agent.Handle 1; Agent.Close 1;
    Agent.Accept 2; Agent.Handle 2; Agent.Close 2;
    Agent.Unlisten "S.gpg-agent"],
   inl (Exn true "OSError")).
Proof.
  apply (accept_failure_stops_agent Sample.agent_env_bad_accept
           "S.gpg-agent" 0 [1; 2] (Exn true "OSError"));
    try reflexivity.
  intros c e' _ H. discriminate H.
Defined.

(** * Properties of [main] *)

Section Entry.

Import Main Observe.

Variable lib : Lib.
Variable env : Main.Env.

Local Arguments key_exists : simpl never.
Local Arguments outcome : simpl never.


Lemma create_calls_within_agent (t : list Agent.event) :
  create_calls (List.map InAgent t) = [].
Proof. induction t as [|ev t IH]; simpl; [|rewrite IH]; reflexivity. Qed.

(** Past the version check, [main] is the command it was asked for. *)
Lemma main_dispatch (v : nat) (cmd : command) (raw : bytes) (ver : string) :
  parse_args env = inr (v, cmd) ->
  setup_logging env v = inr tt ->
  gpg_version env = inr raw ->
  decode_ascii raw = inr ver ->
  semver_match env ver required_gpg = inr true ->
  main lib env =
    match cmd with
    | CreateCmd uid curve_flag time_flag =>
        bind ([ParseArgs; SetupLogging v; LogExperimental; GpgVersion;
                      SemverMatch ver required_gpg], inr tt)
             (fun _ => within InCreate
                         (run_create lib (create_world env)
                            (parse_create uid curve_flag time_flag (clock env))))
    | AgentCmd =>
        bind ([ParseArgs; SetupLogging v; LogExperimental; GpgVersion;
               SemverMatch ver required_gpg], inr tt)
             (fun _ => within InAgent (Agent.run_agent (agent_world env)))
    end.
Proof.
  intros Hparse Hlog Hraw Hver Hok.
  unfold main, bind, call, lift, emit, within.
  rewrite Hparse. cbn. rewrite Hlog, Hraw. cbn. rewrite Hver. cbn. rewrite Hok.
  destruct cmd; reflexivity.
Qed.

(** X19.  A command runs only behind the version check: any call of
    [run_create] or [run_agent] made by [main] means that [gpg2]
    reported a version, that the version is ASCII, and that it matches
    ['>=2.1.15'].  When it does not match, [main] logs an error, runs
    nothing, and returns normally. *)
Theorem commands_run_behind_version_gate :
  (forall ev,
      In ev (trace (main lib env)) -> is_command_event ev = true ->
      exists raw ver,
        gpg_version env = inr raw /\
        decode_ascii raw = inr ver /\
        semver_match env ver required_gpg = inr true) /\
  (forall v cmd raw ver,
      parse_args env = inr (v, cmd) ->
      setup_logging env v = inr tt ->
      gpg_version env = inr raw ->
      decode_ascii raw = inr ver ->
      semver_match env ver required_gpg = inr false ->
      main lib env =
        ([ParseArgs; SetupLogging v; LogExperimental; GpgVersion;
          SemverMatch ver required_gpg; LogUnsupported ver required_gpg],
         inr tt)).
Proof.
  split.
  - open_main. repeat main_step; intros ev Hin Hcmd;
      first
        [ solve [do 2 eexists; (split; [reflexivity|]); split; eassumption]
        | repeat (destruct Hin as [Hin|Hin]; [subst ev; discriminate Hcmd|]);
          destruct Hin ].
  - intros v cmd raw ver Hparse Hlog Hraw Hver Hno.
    open_main. rewrite Hparse. cbn [fst snd app].
    rewrite Hlog, Hraw. cbn [fst snd app]. rewrite Hver. cbn [fst snd app].
    rewrite Hno. reflexivity.
Qed.

(** X20.  A version string of [gpg2] that holds a byte outside ASCII
    makes [main] raise [UnicodeDecodeError] right after asking for the
    version: [semver.match] is not called and no command runs. *)
Theorem non_ascii_version_raises (v : nat) (cmd : command) (raw : bytes)
    (b : Byte.byte) :
  parse_args env = inr (v, cmd) ->
  setup_logging env v = inr tt ->
  gpg_version env = inr raw ->
  In b raw -> (128 <= Byte.to_N b)%N ->
  main lib env =
    ([ParseArgs; SetupLogging v; LogExperimental; GpgVersion],
     inl (Exn true "UnicodeDecodeError")).
Proof.
  intros Hparse Hlog Hraw Hin Hhigh.
  assert (Hdecode : decode_ascii raw = inl (Exn true "UnicodeDecodeError")).
  { unfold decode_ascii.
    destruct (forallb (fun b0 => (Byte.to_N b0 <? 128)%N) raw) eqn:Hall;
      [|reflexivity].
    rewrite forallb_forall in Hall. specialize (Hall b Hin).
    apply N.ltb_lt in Hall. lia. }
  open_main. rewrite Hparse. cbn [fst snd app].
  rewrite Hlog, Hraw. cbn [fst snd app]. rewrite Hdecode. reflexivity.
Qed.


(** X22.  A handler that raises outside [Exception] (a
    [KeyboardInterrupt], say) ends the whole program: the connections
    served before stay served, the failing one is closed without a log
    entry, no later one is accepted, the socket is released, and the
    exception leaves [main]. *)
Theorem interrupt_leaves_main (v : nat) (raw : bytes) (ver path : string)
    (s : Agent.sock) (served : list Agent.conn) (c : Agent.conn)
    (rest : Agent.connections) (e : exn) :
  parse_args env = inr (v, AgentCmd) ->
  setup_logging env v = inr tt ->
  gpg_version env = inr raw ->
  decode_ascii raw = inr ver ->
  semver_match env ver required_gpg = inr true ->
  Agent.get_agent_sock_path (agent_world env) = inr path ->
  Agent.unix_domain_socket_server (agent_world env) path = inr s ->
  Agent.release_socket (agent_world env) path = inr tt ->
  Agent.yield_connections (agent_world env) s =
    Agent.arrive served (Agent.CYield c rest) ->
  (forall c' e', In c' served ->
                 Agent.handle_connection (agent_world env) c' = inl e' ->
                 is_Exception e' = true) ->
  (forall c', In c' served -> Agent.close (agent_world env) c' = inr tt) ->
  Agent.handle_connection (agent_world env) c = inl e ->
  is_Exception e = false ->
  Agent.close (agent_world env) c = inr tt ->
  main lib env =
    ([ParseArgs; SetupLogging v; LogExperimental; GpgVersion;
      SemverMatch ver required_gpg]
       ++ List.map InAgent
            ([Agent.SockPath; Agent.Listen path]
               ++ flat_map (fun c' => Agent.segment c'
                                        (Agent.handle_connection (agent_world env) c'))
                           served
               ++ [Agent.Accept c; Agent.Handle c; Agent.Close c]
               ++ [Agent.Unlisten path]),
     inl e).
Proof.
  intros Hparse Hlog Hraw Hver Hok Hpath Hsock Hrelease Hyield
         Hordinary Hcloses Hh He Hclose.
  rewrite (main_dispatch v AgentCmd raw ver Hparse Hlog Hraw Hver Hok).
  rewrite (run_agent_serves (agent_world env) path s Hpath Hsock Hrelease), Hyield.
  rewrite (serve_arrive (agent_world env) served _ Hordinary Hcloses).
  rewrite serve_yield, Hh, Hclose.
  unfold Agent.after_handler, Agent.segment. rewrite He.
  unfold bind, within, trace, outcome. cbn [fst snd].
  rewrite <- !app_assoc. reflexivity.
Qed.

End Entry.

(** [gpg2] reports 2.1.15 and matches, or 2.0.30 and does not. *)
Lemma commands_run_behind_version_gate_witness :
  (exists raw ver,
      Main.gpg_version
        (Sample.main_env (Sample.of_str "2.1.15")
           (Main.CreateCmd "alice@example.com" None None) (inr tt)) = inr raw /\
      Main.decode_ascii raw = inr ver /\
      Main.semver_match
        (Sample.main_env (Sample.of_str "2.1.15")
           (Main.CreateCmd "alice@example.com" None None) (inr tt))
        ver Main.required_gpg = inr true) /\
  Main.main Sample.lib
    (Sample.main_env (Sample.of_str "2.0.30") Main.AgentCmd (inr tt)) =
    ([Main.ParseArgs; Main.SetupLogging 0; Main.LogExperimental; Main.GpgVersion;
      Main.SemverMatch "2.0.30" Main.required_gpg;
      Main.LogUnsupported "2.0.30" Main.required_gpg],
     inr tt).
Proof.
  split.
  - destruct (commands_run_behind_version_gate Sample.lib
                (Sample.main_env (Sample.of_str "2.1.15")
                   (Main.CreateCmd "alice@example.com" None None) (inr tt)))
      as [Hgate _].
    apply (Hgate (Main.InCreate (LogNote 1478167200))).
    + vm_compute. tauto.
    + reflexivity.
  - destruct (commands_run_behind_version_gate Sample.lib
                (Sample.main_env (Sample.of_str "2.0.30") Main.AgentCmd (inr tt)))
      as [_ Hblocked].
    apply (Hblocked 0 Main.AgentCmd (Sample.of_str "2.0.30") "2.0.30");
      reflexivity.
Defined.


(** [agent] under [main]: connection 1 is served, the handler of
    connection 2 raises [KeyboardInterrupt], connection 3 is never
    accepted. *)
Lemma interrupt_leaves_main_witness :
  Main.main Sample.lib
    (Sample.main_env (Sample.of_str "2.1.15") Main.AgentCmd (inl KeyboardInterrupt)) =
  ([Main.ParseArgs; Main.SetupLogging 0; Main.LogExperimental; Main.GpgVersion;
    Main.SemverMatch "2.1.15" Main.required_gpg;
    Main.InAgent Agent.SockPath; Main.InAgent (Agent.Listen "S.gpg-agent");
    Main.InAgent (Agent.Accept 1); Main.InAgent (Agent.Handle 1);
    Main.InAgent (Agent.Close 1);
    Main.InAgent (Agent.Accept 2); Main.InAgent (Agent.Handle 2);
    Main.InAgent (Agent.Close 2);
    Main.InAgent (Agent.Unlisten "S.gpg-agent")],
   inl KeyboardInterrupt).
Proof.
  apply (interrupt_leaves_main Sample.lib
           (Sample.main_env (Sample.of_str "2.1.15") Main.AgentCmd
              (inl KeyboardInterrupt))
           0 (Sample.of_str "2.1.15") "2.1.15" "S.gpg-agent" 0 [1] 2
           (Agent.arrive [3] Agent.CEnd) KeyboardInterrupt);
    try reflexivity.
  - intros c' e' [<-|[]] H. discriminate H.
Defined.

(** A version string with the byte 0xE9 in it. *)
Lemma non_ascii_version_raises_witness :
  Main.main Sample.lib
    (Sample.main_env [x32; x2e; xe9] Main.AgentCmd (inr tt)) =
  ([Main.ParseArgs; Main.SetupLogging 0; Main.LogExperimental; Main.GpgVersion],
   inl (Exn true "UnicodeDecodeError")).
Proof.
  apply (non_ascii_version_raises Sample.lib
           (Sample.main_env [x32; x2e; xe9] Main.AgentCmd (inr tt))
           0 Main.AgentCmd [x32; x2e; xe9] xe9);
    try reflexivity.
  - simpl. tauto.
  - vm_compute. discriminate.
Defined.


Example run_create_closed_stdout :
  outcome (run_create Sample.lib Sample.closed_stdout Sample.alice) =
    inl (Exn true "BrokenPipeError") /\
  Observe.count is_stdout_write
    (trace (run_create Sample.lib Sample.closed_stdout Sample.alice)) = 1.
Proof. split; reflexivity. Qed.
